(** * Product-recommendation front end: a shallow embedding of its client logic

    The repository is a React application.  Its components keep their state in
    [useState] cells and change it from event handlers; everything the handlers
    and the memoised derivations compute is a transformation of small arrays.
    The embedding follows the components one by one:

    - [App]              the application shell ([App.js]): catalogue filter,
                         browsing history, the get-recommendations handler;
    - [UserPreferences]  the preference toggles;
    - [BrowsingHistory]  the history panel: derived entries, filter/sort,
                         insights, favourite and remove handlers;
    - [Recommendations]  the recommendation cards.

    Conventions.  A JavaScript array is a [list]; a finite JavaScript number is
    a rational ([Q]), its comparisons being exact there, and where the code
    computes a sum or a product of such numbers the host's rounding is a
    parameter; a product identifier is an integer ([Z]); a JavaScript string
    is a [string]; a [Set] is a [gset], a [Map] a [gmap]; an object used as a
    table is the list of its own entries, read through what it inherits.  A
    handler that calls several state setters and talks to the outside is a
    function in a small state-and-trace monad. *)

From Stdlib Require Import Ascii String QArith Qround Lqa Sorted DecimalString.
From stdpp Require Import base decidable option list strings gmap.

Local Open Scope Z_scope.

(** ** JavaScript prelude *)

Module JS.

(** [String.prototype.toLowerCase], on the ASCII letters. *)
Definition lowerAscii (c : ascii) : ascii :=
  let n := nat_of_ascii c in
  if bool_decide (65 ≤ n ≤ 90)%nat then ascii_of_nat (n + 32) else c.

Fixpoint toLowerCase (s : string) : string :=
  match s with
  | EmptyString => EmptyString
  | String c s' => String (lowerAscii c) (toLowerCase s')
  end.

(** [String.prototype.includes]: [sub] occurs in [s] as a substring. *)
Fixpoint includes (s sub : string) : bool :=
  String.prefix sub s ||
  match s with
  | EmptyString => false
  | String _ s' => includes s' sub
  end.

(** [a <= b], [a >= b], [a > b] on finite numbers. *)
Definition le (a b : Q) : bool := Qle_bool a b.
Definition ge (a b : Q) : bool := Qle_bool b a.
Definition gt (a b : Q) : bool := negb (Qle_bool a b).

(** [Array.prototype.reduce] without an initial value: the first element
    seeds the accumulator; on an empty array the call throws a [TypeError],
    which is [None] here. *)
Definition reduce1 {A} (f : A → A → A) (l : list A) : option A :=
  match l with
  | [] => None
  | x :: l' => Some (foldl f x l')
  end.

(** [Array.prototype.sort(cmp)].  The language standard requires the sort to
    be stable; it is embedded as the stable insertion sort, in which [x] is
    placed before the first element [y] with [cmp x y <= 0]. *)
Section Sort.
Context {A : Type} (cmp : A → A → Q).

Fixpoint sort_insert (x : A) (l : list A) : list A :=
  match l with
  | [] => [x]
  | y :: l' => if Qle_bool (cmp x y) 0 then x :: y :: l'
               else y :: sort_insert x l'
  end.

Definition sort (l : list A) : list A := foldr sort_insert [] l.
End Sort.

(** *** Ordinary objects used as string-keyed tables

    [Object.entries] lists the own keys that are array indices (canonical
    decimal numerals below 2^32 - 1) first, in ascending numeric order, and
    then the other string keys in the order of their creation.  A table is
    kept as the list of its own entries in that order; what an object
    inherits from [Object.prototype] is accounted for where a member is read
    or written ([inherited] below). *)

Definition digitValue (c : ascii) : option N :=
  let n := N_of_ascii c in
  if bool_decide (48 ≤ n ≤ 57)%N then Some (n - 48)%N else None.

Fixpoint numeral (s : string) (acc : N) : option N :=
  match s with
  | EmptyString => Some acc
  | String c s' =>
      match digitValue c with
      | Some d => numeral s' (10 * acc + d)%N
      | None => None
      end
  end.

Definition arrayIndex (k : string) : option N :=
  match k with
  | EmptyString => None
  | String c s' =>
      if bool_decide (c = "0"%char ∧ s' ≠ EmptyString) then None
      else match numeral k 0 with
           | Some n => if bool_decide (n ≤ 4294967294)%N then Some n else None
           | None => None
           end
  end.

(** [precedes k k']: a new key [k] is enumerated before the existing key [k']. *)
Definition precedes (k k' : string) : bool :=
  match arrayIndex k, arrayIndex k' with
  | Some n, Some n' => bool_decide (n < n')%N
  | Some _, None => true
  | None, _ => false
  end.

Definition object (V : Type) : Type := list (string * V).

Fixpoint get {V} (o : object V) (k : string) : option V :=
  match o with
  | [] => None
  | (k', v) :: o' => if bool_decide (k' = k) then Some v else get o' k
  end.

Fixpoint create {V} (k : string) (v : V) (o : object V) : object V :=
  match o with
  | [] => [(k, v)]
  | (k', v') :: o' =>
      if precedes k k' then (k, v) :: (k', v') :: o'
      else (k', v') :: create k v o'
  end.

Fixpoint overwrite {V} (k : string) (v : V) (o : object V) : object V :=
  match o with
  | [] => []
  | (k', v') :: o' =>
      if bool_decide (k' = k) then (k, v) :: o'
      else (k', v') :: overwrite k v o'
  end.

(** [o[k] = v] *)
Definition assign {V} (k : string) (v : V) (o : object V) : object V :=
  match get o k with
  | Some _ => overwrite k v o
  | None => create k v o
  end.

(** [Object.entries(o)] *)
Definition entries {V} (o : object V) : list (string * V) := o.

(** The names of the members that an object literal inherits from
    [Object.prototype]. *)
Definition inherited (k : string) : bool :=
  bool_decide
    (k ∈ ["constructor"; "__defineGetter__"; "__defineSetter__";
          "hasOwnProperty"; "__lookupGetter__"; "__lookupSetter__";
          "isPrototypeOf"; "propertyIsEnumerable"; "toString"; "valueOf";
          "__proto__"; "toLocaleString"]).

(** The strings of ASCII characters; on them [toLowerCase] above is the
    host's. *)
Definition isAscii (s : string) : Prop :=
  Forall (λ c, (nat_of_ascii c < 128)%nat) (list_ascii_of_string s).

(** *** Sets whose order of insertion is observed

    [Array.from] and the spread list the members of a [Set] in the order in
    which they were added.  Such a set is kept as the list of its members in
    that order. *)

Definition setAdd {A} `{!EqDecision A} (x : A) (s : list A) : list A :=
  if bool_decide (x ∈ s) then s else s ++ [x].

Definition setDelete {A} `{!EqDecision A} (x : A) (s : list A) : list A :=
  filter (λ y, y ≠ x) s.

(** [[...new Set(l)]] *)
Definition setOf {A} `{!EqDecision A} (l : list A) : list A :=
  foldl (λ s x, setAdd x s) [] l.

(** *** Numbers and strings *)

(** [x % 1]: the remainder after truncation, which has the sign of [x]. *)
Definition mod1 (x : Q) : Q :=
  if Qle_bool 0 x then (x - inject_Z (Qfloor x))%Q
  else (x - inject_Z (Qceiling x))%Q.

(** [glyph.repeat(count)]; a negative count throws a [RangeError], which is
    [None] here.  The result is the list of the glyphs. *)
Definition repeat {A} (glyph : A) (count : Z) : option (list A) :=
  if bool_decide (count < 0) then None
  else Some (replicate (Z.to_nat count) glyph).

(** The text of an integer, as a template literal interpolates it. *)
Definition showInteger (n : Z) : string :=
  NilZero.string_of_int (Z.to_int n).

(** The order [Array.prototype.sort()] uses when it is given no comparator:
    strings by their code units. *)
Definition defaultCompare (a b : string) : Q :=
  match String.compare a b with
  | Lt => (-1)%Q
  | Eq => 0%Q
  | Gt => 1%Q
  end.

End JS.

(** ** Data model *)

(** A product as the catalogue endpoint returns it.  Only the fields read by
    the logic below are kept. *)
Record Product := mkProduct {
  id : Z;
  name : string;
  brand : string;
  category : string;
  price : Q;
  rating : Q
}.

(** The ranges the data model gives to the numeric fields: a non-negative
    price and a rating between 0 and 5. *)
Definition inDataModel (p : Product) : Prop :=
  (0 <= price p)%Q ∧ (0 <= rating p)%Q ∧ (rating p <= 5)%Q.

(** The preference snapshot owned by the shell. *)
Record Preferences := mkPreferences {
  priceRange : string;
  categories : list string;
  brands : list string;
  minRating : Q
}.

Record Recommendation := mkRecommendation {
  product : Product;
  explanation : string;
  confidence_score : Q
}.

(** An object holding some of the members of a preference snapshot, as the
    preference panel hands it to the shell. *)
Record PreferencesUpdate := mkPreferencesUpdate {
  newPriceRange : option string;
  newCategories : option (list string);
  newBrands : option (list string);
  newMinRating : option Q
}.

(** ** The application shell *)

Module App.

Record Notification := mkNotification {
  message : string;
  type : string
}.

(** The [useState] cells of [App]. *)
Record State := mkState {
  products : list Product;
  filteredProducts : list Product;
  userPreferences : Preferences;
  browsingHistory : list Z;
  recommendations : list Recommendation;
  searchQuery : string;
  isLoading : bool;
  isLoadingProducts : bool;
  notification : option Notification
}.

Definition initialState : State :=
  {| products := [];
     filteredProducts := [];
     userPreferences :=
       {| priceRange := "all"; categories := []; brands := [];
          minRating := 0%Q |};
     browsingHistory := [];
     recommendations := [];
     searchQuery := EmptyString;
     isLoading := false;
     isLoadingProducts := true;
     notification := None |}.

(** *** The filter effect *)

Definition matchesSearch (searchQuery : string) (p : Product) : bool :=
  bool_decide (searchQuery = EmptyString) ||
  JS.includes (JS.toLowerCase (name p)) (JS.toLowerCase searchQuery) ||
  JS.includes (JS.toLowerCase (category p)) (JS.toLowerCase searchQuery) ||
  JS.includes (JS.toLowerCase (brand p)) (JS.toLowerCase searchQuery).

Definition matchesCategory (prefs : Preferences) (p : Product) : bool :=
  bool_decide (length (categories prefs) = 0%nat) ||
  bool_decide (category p ∈ categories prefs).

Definition matchesBrand (prefs : Preferences) (p : Product) : bool :=
  bool_decide (length (brands prefs) = 0%nat) ||
  bool_decide (brand p ∈ brands prefs).

Definition matchesPrice (prefs : Preferences) (p : Product) : bool :=
  bool_decide (priceRange prefs = "all") ||
  (bool_decide (priceRange prefs = "0-50") && JS.le (price p) 50) ||
  (bool_decide (priceRange prefs = "50-100") &&
     JS.gt (price p) 50 && JS.le (price p) 100) ||
  (bool_decide (priceRange prefs = "100+") && JS.gt (price p) 100).

Definition matchesRating (prefs : Preferences) (p : Product) : bool :=
  JS.ge (rating p) (minRating prefs).

Definition matches (searchQuery : string) (prefs : Preferences)
    (p : Product) : bool :=
  matchesSearch searchQuery p && matchesCategory prefs p &&
  matchesBrand prefs p && matchesPrice prefs p && matchesRating prefs p.

(** [products.filter(product => ...)] *)
Definition filterProducts (products : list Product) (searchQuery : string)
    (prefs : Preferences) : list Product :=
  filter (λ p, matches searchQuery prefs p) products.

(** *** Product click: the updater passed to [setBrowsingHistory] *)

Definition handleProductClick (productId : Z) (prev : list Z) : list Z :=
  take 20 (productId :: filter (λ id', id' ≠ productId) prev).

(** The history after a series of clicks, oldest click first. *)
Definition clicks (ids : list Z) (history : list Z) : list Z :=
  foldl (λ h i, handleProductClick i h) history ids.

(** *** Handlers with effects

    A handler reads the cells of the render it was created in, queues state
    updates and talks to the outside.  It is a function from the state to a
    result, the new state and the trace of what it did outside. *)

Inductive Effect :=
| PostRecommendations (preferences : Preferences) (browsing_history : list Z)
| SetTimeout (ms : Z)
| ConsoleError (text : string).

(** The parsed body of an answer: [null], on which reading a member throws,
    or a value whose [recommendations] member may be missing. *)
Inductive Body :=
| Null
| Value (recommendations : option (list Recommendation)).

(** What awaiting [getRecommendations] gives: the parsed body, or a thrown
    error. *)
Inductive Response :=
| Resolved (data : Body)
| Rejected.

Definition M (A : Type) : Type := State → A * State * list Effect.

#[export] Instance M_ret : MRet M := λ A a st, (a, st, []).

#[export] Instance M_bind : MBind M := λ A B k m st,
  let '(a, st1, t1) := m st in
  let '(b, st2, t2) := k a st1 in
  (b, st2, t1 ++ t2).

Definition modify (f : State → State) : M unit := λ st, (tt, f st, []).
Definition emit (e : Effect) : M unit := λ st, (tt, st, [e]).
Definition read {A} (f : State → A) : M A := λ st, (f st, st, []).

Definition setNotification (n : option Notification) : M unit :=
  modify (λ st,
    mkState (products st) (filteredProducts st) (userPreferences st)
      (browsingHistory st) (recommendations st) (searchQuery st)
      (isLoading st) (isLoadingProducts st) n).

Definition setIsLoading (b : bool) : M unit :=
  modify (λ st,
    mkState (products st) (filteredProducts st) (userPreferences st)
      (browsingHistory st) (recommendations st) (searchQuery st)
      b (isLoadingProducts st) (notification st)).

Definition setRecommendations (r : list Recommendation) : M unit :=
  modify (λ st,
    mkState (products st) (filteredProducts st) (userPreferences st)
      (browsingHistory st) r (searchQuery st)
      (isLoading st) (isLoadingProducts st) (notification st)).

(** [showNotification]: the timer that clears the notification is left to
    the environment. *)
Definition showNotification (message type : string) : M unit :=
  setNotification (Some (mkNotification message type)) ;;
  emit (SetTimeout 3000).

(** [getRecommendations] of [services/api.js]: one POST, answered by the
    environment [server]. *)
Definition getRecommendations (server : Preferences → list Z → Response)
    (userPreferences : Preferences) (browsingHistory : list Z)
    : M Response :=
  emit (PostRecommendations userPreferences browsingHistory) ;;
  match server userPreferences browsingHistory with
  | Resolved data => mret (Resolved data)
  | Rejected => emit (ConsoleError "getRecommendations error:") ;;
                mret Rejected
  end.

Definition handleGetRecommendations
    (server : Preferences → list Z → Response) : M unit :=
  history ← read browsingHistory;
  prefs ← read userPreferences;
  if bool_decide (length history = 0%nat) &&
     bool_decide (length (categories prefs) = 0%nat)
  then showNotification "Browse products or set preferences first." "warning"
  else
    setIsLoading true ;;
    r ← getRecommendations server prefs history;
    match r with
    | Resolved (Value recommendations) =>
        setRecommendations (default [] recommendations) ;;
        showNotification "Recommendations updated!" "success"
    | Resolved Null | Rejected =>
        emit (ConsoleError "Error getting recommendations:") ;;
        showNotification "Failed to get recommendations." "error"
    end ;;
    setIsLoading false.

Definition handleClearHistory (prev : list Z) : list Z := [].

(** [handlePreferencesChange]: the updater
    [prev => ({ ...prev, ...newPreferences })]. *)
Definition handlePreferencesChange (newPreferences : PreferencesUpdate)
    (prev : Preferences) : Preferences :=
  {| priceRange := default (priceRange prev) (newPriceRange newPreferences);
     categories := default (categories prev) (newCategories newPreferences);
     brands := default (brands prev) (newBrands newPreferences);
     minRating := default (minRating prev) (newMinRating newPreferences) |}.

End App.

(** ** The preference panel *)

Module UserPreferences.

(** The updater passed to [setSelectedCategories]. *)
Definition handleCategoryChange (category : string) (prev : list string)
    : list string :=
  if bool_decide (category ∈ prev)
  then filter (λ c, c ≠ category) prev
  else prev ++ [category].

(** The updater passed to [setSelectedBrands]. *)
Definition handleBrandChange (brand : string) (prev : list string)
    : list string :=
  if bool_decide (brand ∈ prev)
  then filter (λ b, b ≠ brand) prev
  else prev ++ [brand].

(** The [useState] cells of the panel. *)
Record State := mkState {
  selectedCategories : list string;
  selectedBrands : list string;
  priceRange : string
}.

(** The option lists: [[...new Set(products.map(p => p.category))]] and the
    same for the brands. *)
Definition categories (products : list Product) : list string :=
  JS.setOf (map category products).

Definition brands (products : list Product) : list string :=
  JS.setOf (map brand products).

(** The object the effect passes to [onPreferencesChange]. *)
Definition onPreferencesChange (st : State) : PreferencesUpdate :=
  {| newCategories := Some (selectedCategories st);
     newBrands := Some (selectedBrands st);
     newPriceRange := Some (priceRange st);
     newMinRating := None |}.

End UserPreferences.

(** ** The history panel *)

Module BrowsingHistory.

(** An element of [historyProducts]: the product's own fields ([base], the
    spread [...product]) and the three derived ones. *)
Record Entry := mkEntry {
  base : Product;
  viewedAt : Z;
  isFavorite : bool;
  viewCount : nat
}.

(** The [useState] cells of the component. *)
Record State := mkState {
  viewMode : string;
  sortBy : string;
  filterBy : string;
  searchQuery : string;
  favorites : gset Z;
  timestamps : gmap Z Z
}.

(** A call of one of the callbacks received from the parent. *)
Inductive Callback :=
| OnProductClick (productId : Z)
| OnClearHistory.

(** [products.find(p => p.id === id)] *)
Definition findProduct (products : list Product) (i : Z) : option Product :=
  List.find (λ p, bool_decide (id p = i)) products.

(** [.filter(Boolean)] on an array of entries and [null]s. *)
Definition filterBoolean {A} (l : list (option A)) : list A :=
  omap (λ x, x) l.

(** [timestamps.get(id) || Date.now()], [now] being the clock reading. *)
Definition viewedAtOf (now : Z) (timestamps : gmap Z Z) (i : Z) : Z :=
  match timestamps !! i with
  | Some t => if bool_decide (t = 0) then now else t
  | None => now
  end.

Definition historyProducts (now : Z) (history : list Z)
    (products : list Product) (timestamps : gmap Z Z) (favorites : gset Z)
    : list Entry :=
  filterBoolean
    (map (λ i,
        match findProduct products i with
        | None => None
        | Some p =>
            Some {| base := p;
                    viewedAt := viewedAtOf now timestamps i;
                    isFavorite := bool_decide (i ∈ favorites);
                    viewCount := length (filter (λ histId, histId = i) history) |}
        end) history).

(** The comparator of [filtered.sort]; [localeCompare] is the host's string
    collation, taken as given. *)
Definition compare (localeCompare : string → string → Z) (sortBy : string)
    (a b : Entry) : Q :=
  if bool_decide (sortBy = "recent") then inject_Z (viewedAt b - viewedAt a)
  else if bool_decide (sortBy = "name")
    then inject_Z (localeCompare (name (base a)) (name (base b)))
  else if bool_decide (sortBy = "price")
    then (price (base a) - price (base b))%Q
  else if bool_decide (sortBy = "rating")
    then (rating (base b) - rating (base a))%Q
  else 0%Q.

Definition matchesSearch (searchQuery : string) (p : Entry) : bool :=
  JS.includes (JS.toLowerCase (name (base p))) (JS.toLowerCase searchQuery) ||
  JS.includes (JS.toLowerCase (brand (base p))) (JS.toLowerCase searchQuery) ||
  JS.includes (JS.toLowerCase (category (base p))) (JS.toLowerCase searchQuery).

Definition matchesFilter (filterBy : string) (p : Entry) : bool :=
  if bool_decide (filterBy = "favorites") then isFavorite p
  else bool_decide (category (base p) = filterBy).

(** The two filter steps that precede the sort. *)
Definition filtered (historyProducts : list Entry)
    (searchQuery filterBy : string) : list Entry :=
  let filtered := historyProducts in
  let filtered :=
    if bool_decide (searchQuery ≠ EmptyString)
    then filter (λ p, matchesSearch searchQuery p) filtered
    else filtered in
  if bool_decide (filterBy ≠ "all")
  then filter (λ p, matchesFilter filterBy p) filtered
  else filtered.

Definition processedProducts (localeCompare : string → string → Z)
    (historyProducts : list Entry) (searchQuery filterBy sortBy : string)
    : list Entry :=
  JS.sort (compare localeCompare sortBy)
          (filtered historyProducts searchQuery filterBy).

(** *** Insights *)

(** What a count table holds under a key: a number or, once a key has named
    an inherited member, a text. *)
Inductive Count :=
| Number (n : nat)
| Text (s : string).

(** [(acc[k] || 0) + 1].  Under a key that the table does not hold itself,
    [acc[k]] reads the member that the object literal inherits, if the key
    names one; that member is an object, so the sum is its text,
    [memberText k] as the host prints it, with [1] appended.  To a text that
    the table holds the [1] is appended as well. *)
Definition increment (memberText : string → string) (acc : JS.object Count)
    (k : string) : Count :=
  match JS.get acc k with
  | Some (Number n) => Number (n + 1)
  | Some (Text s) =>
      if bool_decide (s = EmptyString) then Number 1 else Text (s +:+ "1")
  | None =>
      if JS.inherited k then Text (memberText k +:+ "1") else Number 1
  end.

(** [acc[k] = v].  Under the key [__proto__] the assignment runs the
    inherited setter, which ignores a value that is no object: the table
    keeps no entry. *)
Definition store (k : string) (v : Count) (acc : JS.object Count)
    : JS.object Count :=
  if bool_decide (k = "__proto__") then acc else JS.assign k v acc.

(** [list.reduce((acc, p) => { acc[key(p)] = (acc[key(p)] || 0) + 1; return acc }, {})] *)
Definition countBy (memberText : string → string) (key : Entry → string)
    (l : list Entry) : JS.object Count :=
  foldl (λ acc p, store (key p) (increment memberText acc (key p)) acc) [] l.

(** [a > b] on counts: numbers by value, texts by their code units; a text
    against a number converts to a number first, and the text of a member,
    being no numeral, converts to [NaN], which exceeds nothing and is
    exceeded by nothing. *)
Definition greater (a b : Count) : bool :=
  match a, b with
  | Number m, Number n => bool_decide (n < m)%nat
  | Text s, Text t =>
      match String.compare s t with
      | Gt => true
      | _ => false
      end
  | _, _ => false
  end.

(** [Object.entries(count).reduce((a, b) => a[1] > b[1] ? a : b)[0]] *)
Definition top (count : JS.object Count) : option string :=
  fst <$> JS.reduce1
    (λ a b : string * Count, if greater a.2 b.2 then a else b)
    (JS.entries count).

(** [list.reduce((sum, p) => sum + f(p), 0) / list.length], in
    floating-point arithmetic: [round] is the host's rounding of a real result
    to the nearest number it can represent, taken as given. *)
Definition average (round : Q → Q) (f : Entry → Q) (l : list Entry) : Q :=
  round (foldl (λ sum p, round (sum + f p)) 0 l
         / inject_Z (Z.of_nat (length l)))%Q.

(** [toFixed] is the host's number formatting, [round] its rounding and
    [memberText] its text of an inherited member, all taken as given.  The
    result is [None] when the computation throws. *)
Definition insights (memberText : string → string) (round : Q → Q)
    (toFixed : Q → nat → string)
    (historyProducts : list Entry) : option (list string) :=
  if bool_decide (length historyProducts = 0%nat) then Some []
  else
    let categoryCount :=
      countBy memberText (λ p, category (base p)) historyProducts in
    let brandCount :=
      countBy memberText (λ p, brand (base p)) historyProducts in
    let avgPrice := average round (λ p, price (base p)) historyProducts in
    let avgRating := average round (λ p, rating (base p)) historyProducts in
    topCategory ← top categoryCount;
    topBrand ← top brandCount;
    Some [ "Most viewed category: " +:+ topCategory;
           "Favorite brand: " +:+ topBrand;
           "Average price: $" +:+ toFixed avgPrice 2%nat;
           "Average rating: " +:+ toFixed avgRating 1%nat +:+ "/5" ].

(** *** Handlers

    A handler gives the new cells and the parent callbacks it invoked.  The
    buttons' handlers stop the propagation of the click, so the item's own
    click handler does not run after them. *)

Definition setFavorites (f : gset Z → gset Z) (st : State) : State :=
  mkState (viewMode st) (sortBy st) (filterBy st) (searchQuery st)
          (f (favorites st)) (timestamps st).

Definition handleProductClick (onProductClick : bool) (product : Entry)
    (st : State) : State * list Callback :=
  (st, if onProductClick then [OnProductClick (id (base product))] else []).

Definition handleFavoriteToggle (productId : Z) (st : State)
    : State * list Callback :=
  (setFavorites (λ prev,
      if bool_decide (productId ∈ prev) then prev ∖ {[productId]}
      else prev ∪ {[productId]}) st, []).

Definition handleRemoveItem (productId : Z) (st : State)
    : State * list Callback :=
  (setFavorites (λ prev, prev ∖ {[productId]}) st, []).

(** *** The timestamp effects

    Both run after a render in which the history has changed, the first
    before the second; [now] is the clock reading. *)

(** The first effect: a copy of the map in which every identifier of the
    history that has no timestamp gets one. *)
Definition stampMissing (now : Z) (history : list Z) (timestamps : gmap Z Z)
    : gmap Z Z :=
  foldl (λ newTimestamps i,
      if bool_decide (is_Some (newTimestamps !! i)) then newTimestamps
      else <[i := now]> newTimestamps)
    timestamps history.

(** The second effect: the updater [prev => new Map(prev.set(latest, now))],
    applied when the history is not empty. *)
Definition stampLatest (now : Z) (history : list Z) (prev : gmap Z Z)
    : gmap Z Z :=
  match history with
  | [] => prev
  | latest :: _ => <[latest := now]> prev
  end.

(** *** The category buttons *)

(** [[...new Set(historyProducts.map(p => p.category))].sort()] *)
Definition availableCategories (historyProducts : list Entry) : list string :=
  JS.sort JS.defaultCompare
    (JS.setOf (map (λ p, category (base p)) historyProducts)).

(** *** Formatting *)

(** [formatTimestamp]; [now] is the clock reading, [Math.floor] of a quotient
    of integers is the integer division. *)
Definition formatTimestamp (now timestamp : Z) : string :=
  let diff := now - timestamp in
  let minutes := diff / 60000 in
  let hours := diff / 3600000 in
  let days := diff / 86400000 in
  if bool_decide (days > 0) then JS.showInteger days +:+ "d ago"
  else if bool_decide (hours > 0) then JS.showInteger hours +:+ "h ago"
  else if bool_decide (minutes > 0) then JS.showInteger minutes +:+ "m ago"
  else "Just now".

(** The two glyphs of the star line. *)
Inductive Glyph :=
| BlackStar
| WhiteStar.

(** [renderStars]: the text of the star line, as the list of its glyphs.  The
    result is [None] when a [repeat] throws. *)
Definition renderStars (rating : Q) : option (list Glyph) :=
  let fullStars := Qfloor rating in
  let hasHalf := JS.ge (JS.mod1 rating) (1 # 2) in
  let emptyStars := 5 - fullStars - (if hasHalf then 1 else 0) in
  full ← JS.repeat BlackStar fullStars;
  empty ← JS.repeat WhiteStar emptyStars;
  Some (full ++ (if hasHalf then [WhiteStar] else []) ++ empty).

End BrowsingHistory.

(** ** The recommendation cards *)

Module Recommendations.

Definition getConfidenceColor (score : Q) : string :=
  if JS.ge score 8 then "#16a34a"
  else if JS.ge score 5 then "#f59e0b"
  else "#ef4444".

(** The confidence section of a card: the number printed before [/10], the
    width of the fill in percent and its colour. *)
Record ConfidenceSection := mkConfidenceSection {
  shown : Q;
  width : Q;
  backgroundColor : string
}.

Definition confidenceSection (rec : Recommendation) : ConfidenceSection :=
  {| shown := confidence_score rec;
     width := (confidence_score rec * 10)%Q;
     backgroundColor := getConfidenceColor (confidence_score rec) |}.

Inductive View :=
| Loading
| NoRecommendations
| Grid (cards : list (Recommendation * ConfidenceSection)).

Definition render (recommendations : list Recommendation) (isLoading : bool)
    : View :=
  if isLoading then Loading
  else if bool_decide (length recommendations = 0%nat) then NoRecommendations
  else Grid (map (λ rec, (rec, confidenceSection rec)) recommendations).

(** A value clamped into [0, 10]. *)
Definition clamp (score : Q) : Q :=
  if JS.le score 0 then 0%Q else if JS.ge score 10 then 10%Q else score.

End Recommendations.

(** ** The catalogue *)

Module Catalog.

(** A product as the catalogue reads it: the common fields and the optional
    ones the sort uses. *)
Record Item := mkItem {
  base : Product;
  reviewCount : option Q;
  dateAdded : option Q
}.

(** The [useState] cells of the component.  The comparison list is a [Set]
    that is handed out as an array, so its order is kept. *)
Record State := mkState {
  viewMode : string;
  sortBy : string;
  wishlist : gset Z;
  compareList : list Z;
  compareMode : bool
}.

(** A call of one of the callbacks received from the parent. *)
Inductive Callback :=
| OnProductClick (productId : Z)
| OnProductFavorite (productId : Z) (favorite : bool)
| OnProductCompare (productIds : list Z).

(** The default ranking; a missing or zero [reviewCount] counts as 0.  The
    sum is floating-point arithmetic: [round] is the host's rounding of a
    real result to the nearest number it can represent, taken as given, and
    the literal [0.1] is the rounded tenth. *)
Definition score (round : Q → Q) (wishlist : gset Z) (a : Item) : Q :=
  round
    (round (round (rating (base a) * 20)
            + round (default 0 (reviewCount a) * round (1 # 10)))
     + (if bool_decide (id (base a) ∈ wishlist) then 50 else 0))%Q.

(** The comparator of the sort; [localeCompare] is the host's string
    collation, taken as given.  In the differences of two given numbers only
    the sign matters, which rounding keeps. *)
Definition compare (round : Q → Q) (localeCompare : string → string → Z)
    (sortBy : string) (wishlist : gset Z) (a b : Item) : Q :=
  if bool_decide (sortBy = "name")
    then inject_Z (localeCompare (name (base a)) (name (base b)))
  else if bool_decide (sortBy = "price-low")
    then (price (base a) - price (base b))%Q
  else if bool_decide (sortBy = "price-high")
    then (price (base b) - price (base a))%Q
  else if bool_decide (sortBy = "rating")
    then (rating (base b) - rating (base a))%Q
  else if bool_decide (sortBy = "newest")
    then (default 0 (dateAdded b) - default 0 (dateAdded a))%Q
  else round (score round wishlist b - score round wishlist a)%Q.

Definition sortedProducts (round : Q → Q)
    (localeCompare : string → string → Z)
    (products : list Item) (sortBy : string) (wishlist : gset Z)
    : list Item :=
  if bool_decide (length products = 0%nat) then []
  else JS.sort (compare round localeCompare sortBy wishlist) products.

(** The handlers give the new cells and the parent callbacks they invoked;
    [onProductFavorite] and [onProductCompare] tell whether the parent passed
    the callback. *)

Definition handleProductClick (product : Item) (st : State)
    : State * list Callback :=
  (st, [OnProductClick (id (base product))]).

Definition handleWishlistToggle (onProductFavorite : bool) (productId : Z)
    (st : State) : State * list Callback :=
  let prev := wishlist st in
  let newWishlist :=
    if bool_decide (productId ∈ prev) then prev ∖ {[productId]}
    else prev ∪ {[productId]} in
  (mkState (viewMode st) (sortBy st) newWishlist (compareList st)
           (compareMode st),
   if onProductFavorite
   then [OnProductFavorite productId (negb (bool_decide (productId ∈ prev)))]
   else []).

Definition handleCompareToggle (onProductCompare : bool) (productId : Z)
    (st : State) : State * list Callback :=
  if bool_decide (3 ≤ length (compareList st))%nat &&
     negb (bool_decide (productId ∈ compareList st))
  then (st, [])
  else
    let prev := compareList st in
    let newCompareList :=
      if bool_decide (productId ∈ prev) then JS.setDelete productId prev
      else JS.setAdd productId prev in
    (mkState (viewMode st) (sortBy st) (wishlist st) newCompareList
             (compareMode st),
     if onProductCompare then [OnProductCompare newCompareList] else []).

(** The classes of the five stars of [renderStars]. *)
Inductive Star :=
| Filled
| Half
| Plain.

(** The array [stars] that the loop of [renderStars] fills. *)
Definition stars (rating : Q) : list Star :=
  let fullStars := Qfloor rating in
  let hasHalfStar := JS.ge (JS.mod1 rating) (1 # 2) in
  map (λ i : Z,
      if bool_decide (i < fullStars) then Filled
      else if bool_decide (i = fullStars) && hasHalfStar then Half
      else Plain)
    [0; 1; 2; 3; 4].

End Catalog.

(** ** Vocabulary of the statements *)

(** The number of elements of [l] whose key is [k]. *)
Definition occurrences {A} (key : A → string) (k : string) (l : list A)
    : nat :=
  length (filter (λ p, key p = k) l).

(** [x] stands somewhere before an occurrence of [y] in [l]. *)
Definition enumeratedBefore {A} (x y : A) (l : list A) : Prop :=
  ∃ pre post, l = pre ++ y :: post ∧ x ∈ pre.

(** [x] occurs in [l] before [y] occurs for the first time. *)
Definition firstSeenBefore {A} (x y : A) (l : list A) : Prop :=
  ∃ pre post, l = pre ++ y :: post ∧ (y ∉ pre) ∧ x ∈ pre.

(** The number that a count stands for; a text stands for none. *)
Definition numberOf (c : BrowsingHistory.Count) : nat :=
  match c with
  | BrowsingHistory.Number n => n
  | BrowsingHistory.Text _ => 0
  end.

(** No key of the list names a member that an object literal inherits from
    [Object.prototype]. *)
Definition plain {A} (key : A → string) (l : list A) : Prop :=
  Forall (λ p, JS.inherited (key p) = false) l.

(** [l] has the shape [... x ... y ...]: an [x] with a [y] further on. *)
Definition inOrder {A} (x y : A) (l : list A) : Prop :=
  ∃ l1 l2 l3, l = l1 ++ x :: l2 ++ y :: l3.

(** * Verification *)

(** ** Lists *)

Section ListFacts.
Context {A : Type}.

Lemma filter_all (P : A → Prop) `{!∀ x, Decision (P x)} (l : list A) :
  Forall P l → filter P l = l.
Proof.
  induction 1 as [|x l Hx _ IH]; [done|].
  by rewrite filter_cons_True, IH.
Qed.

Lemma filter_ne_fresh `{!EqDecision A} (x : A) (l : list A) :
  x ∉ l → filter (λ y, y ≠ x) l = l.
Proof.
  intros Hx. apply filter_all, Forall_forall.
  intros y Hy ->. by apply Hx.
Qed.

Lemma filter_eq_fresh `{!EqDecision A} (x : A) (l : list A) :
  x ∉ l → filter (λ y, y = x) l = [].
Proof.
  induction l as [|y l IH]; [done|]. intros Hx.
  rewrite not_elem_of_cons in Hx. destruct Hx as [Hne Hx].
  rewrite filter_cons_False by congruence. auto.
Qed.

Lemma filter_eq_NoDup `{!EqDecision A} (x : A) (l : list A) :
  NoDup l → x ∈ l → filter (λ y, y = x) l = [x].
Proof.
  induction 1 as [|y l Hy Hl IH]; intros Hx.
  - by destruct (not_elem_of_nil x).
  - destruct (decide (y = x)) as [->|Hne].
    + rewrite filter_cons_True by done. by rewrite filter_eq_fresh.
    + rewrite filter_cons_False by done. apply IH.
      rewrite elem_of_cons in Hx. by destruct Hx as [->|Hx].
Qed.
End ListFacts.

(** ** C1: the browsing history *)

Lemma handleProductClick_unfold (productId : Z) (prev : list Z) :
  App.handleProductClick productId prev
  = productId :: take 19 (filter (λ i, i ≠ productId) prev).
Proof. reflexivity. Qed.

Lemma handleProductClick_fresh (productId : Z) (prev : list Z) :
  productId ∉ prev →
  App.handleProductClick productId prev = productId :: take 19 prev.
Proof.
  intros H. by rewrite handleProductClick_unfold, filter_ne_fresh.
Qed.

Lemma handleProductClick_NoDup (productId : Z) (prev : list Z) :
  NoDup prev → NoDup (App.handleProductClick productId prev).
Proof.
  intros Hnd. rewrite handleProductClick_unfold. apply NoDup_cons. split.
  - intros Hin. apply subseteq_take in Hin.
    rewrite list_elem_of_filter in Hin. by destruct Hin as [Hne _].
  - eapply sublist_NoDup; [|apply sublist_take]. by apply NoDup_filter.
Qed.

Lemma clicks_snoc (ids : list Z) (i : Z) (history : list Z) :
  App.clicks (ids ++ [i]) history
  = App.handleProductClick i (App.clicks ids history).
Proof. unfold App.clicks. by rewrite foldl_app. Qed.

(** Clicking distinct products one after the other, starting from an empty
    history, leaves the last twenty of them, the most recent first. *)
Lemma clicks_distinct (ids : list Z) :
  NoDup ids → App.clicks ids [] = take 20 (reverse ids).
Proof.
  induction ids as [|i ids IH] using rev_ind; [done|].
  intros [Hnd [Hi _]]%NoDup_app.
  rewrite clicks_snoc, (IH Hnd), reverse_snoc.
  rewrite handleProductClick_fresh; [by rewrite take_take|].
  intros Hin. apply subseteq_take in Hin. rewrite elem_of_reverse in Hin.
  apply (Hi i); [done|]. set_solver.
Qed.

Lemma handleProductClick_revisit (productId : Z) (prev : list Z) :
  productId ∈ prev → (length prev ≤ 20)%nat →
  App.handleProductClick productId prev
  = productId :: filter (λ i, i ≠ productId) prev.
Proof.
  intros Hin Hlen. rewrite handleProductClick_unfold. f_equal.
  apply take_ge.
  apply list_elem_of_split in Hin as (l1 & l2 & ->).
  rewrite filter_app, filter_cons_False by tauto.
  rewrite length_app in *. cbn [length] in Hlen.
  pose proof (length_filter (λ i, i ≠ productId) l1).
  pose proof (length_filter (λ i, i ≠ productId) l2). lia.
Qed.

(** C1.  A click puts the identifier at position 0 and leaves exactly one
    copy of it; if it was already there and the list was within the cap, the
    other identifiers keep their places behind it.  Clicking the same
    identifier twice in succession gives the same history as clicking it once.
    Clicking an identifier that is not among twenty distinct ones gives a
    history of length twenty that has lost the last (oldest) identifier; so
    twenty-one distinct clicks from the empty history keep the last twenty. *)
Theorem handleProductClick_history (productId : Z) (prev : list Z) :
  (App.handleProductClick productId prev !! 0%nat = Some productId
   ∧ filter (λ i, i = productId) (App.handleProductClick productId prev)
     = [productId]
   ∧ (productId ∈ prev → (length prev ≤ 20)%nat →
      App.handleProductClick productId prev
      = productId :: filter (λ i, i ≠ productId) prev))
  ∧ App.handleProductClick productId (App.handleProductClick productId prev)
    = App.handleProductClick productId prev
  ∧ (∀ init oldest,
       prev = init ++ [oldest] → length prev = 20%nat → NoDup prev →
       productId ∉ prev →
       App.handleProductClick productId prev = productId :: init
       ∧ length (App.handleProductClick productId prev) = 20%nat
       ∧ oldest ∉ App.handleProductClick productId prev)
  ∧ (∀ first rest,
       NoDup (first :: rest) → length (first :: rest) = 21%nat →
       App.clicks (first :: rest) [] = reverse rest
       ∧ length (App.clicks (first :: rest) []) = 20%nat).
Proof.
  assert (Hfront : productId ∉ take 19 (filter (λ i, i ≠ productId) prev)).
  { intros Hin. apply subseteq_take in Hin.
    rewrite list_elem_of_filter in Hin. by destruct Hin as [Hne _]. }
  split; [split; [|split]|split; [|split]].
  - reflexivity.
  - rewrite handleProductClick_unfold, filter_cons_True by done.
    by rewrite filter_eq_fresh.
  - apply handleProductClick_revisit.
  - rewrite (handleProductClick_unfold _ prev), handleProductClick_unfold.
    rewrite filter_cons_False by tauto.
    rewrite filter_ne_fresh by done. by rewrite take_idemp.
  - intros init oldest -> Hlen Hnd Hfresh.
    rewrite handleProductClick_fresh by done.
    rewrite length_app in Hlen. cbn [length] in Hlen.
    rewrite take_app_length' by lia.
    split; [done|split; [cbn [length]; lia|]].
    apply NoDup_app in Hnd as (_ & Hdisj & _).
    rewrite not_elem_of_cons. split.
    + intros ->. apply Hfresh. set_solver.
    + intros Hin. apply (Hdisj _ Hin). set_solver.
  - intros first rest Hnd Hlen. cbn [length] in Hlen.
    rewrite clicks_distinct by done. rewrite reverse_cons.
    rewrite take_app_length' by (rewrite length_reverse; lia).
    split; [done|]. rewrite length_reverse. lia.
Qed.

Lemma handleProductClick_history_witness :
  App.handleProductClick 21 (reverse (seqZ 1 20)) = 21 :: reverse (seqZ 2 19)
  ∧ App.handleProductClick 7 (reverse (seqZ 1 20))
    = 7 :: filter (λ i, i ≠ 7) (reverse (seqZ 1 20))
  ∧ App.clicks (seqZ 1 21) [] = reverse (seqZ 2 20).
Proof.
  destruct (handleProductClick_history 21 (reverse (seqZ 1 20)))
    as (_ & _ & Hevict & Hall).
  destruct (handleProductClick_history 7 (reverse (seqZ 1 20)))
    as ((_ & _ & Hmove) & _).
  split; [|split].
  - apply (Hevict (reverse (seqZ 2 19)) 1).
    + reflexivity.
    + reflexivity.
    + compute_done.
    + compute_done.
  - apply Hmove.
    + compute_done.
    + vm_compute. lia.
  - apply (Hall 1 (seqZ 2 20)).
    + compute_done.
    + reflexivity.
Defined.

(** ** C2: the get-recommendations handler *)

(** What a run of the handler amounts to, case by case. *)
Lemma handleGetRecommendations_run
    (server : Preferences → list Z → App.Response) (st : App.State) :
  App.handleGetRecommendations server st =
  let prefs := App.userPreferences st in
  let history := App.browsingHistory st in
  let finish recs note :=
    App.mkState (App.products st) (App.filteredProducts st) prefs history
      recs (App.searchQuery st) false (App.isLoadingProducts st) (Some note) in
  if bool_decide (length history = 0%nat) &&
     bool_decide (length (categories prefs) = 0%nat)
  then
    (tt,
     App.mkState (App.products st) (App.filteredProducts st) prefs history
       (App.recommendations st) (App.searchQuery st) (App.isLoading st)
       (App.isLoadingProducts st)
       (Some (App.mkNotification "Browse products or set preferences first."
                "warning")),
     [App.SetTimeout 3000])
  else
    match server prefs history with
    | App.Resolved (App.Value recommendations) =>
        (tt,
         finish (default [] recommendations)
           (App.mkNotification "Recommendations updated!" "success"),
         [App.PostRecommendations prefs history; App.SetTimeout 3000])
    | App.Resolved App.Null =>
        (tt,
         finish (App.recommendations st)
           (App.mkNotification "Failed to get recommendations." "error"),
         [App.PostRecommendations prefs history;
          App.ConsoleError "Error getting recommendations:";
          App.SetTimeout 3000])
    | App.Rejected =>
        (tt,
         finish (App.recommendations st)
           (App.mkNotification "Failed to get recommendations." "error"),
         [App.PostRecommendations prefs history;
          App.ConsoleError "getRecommendations error:";
          App.ConsoleError "Error getting recommendations:";
          App.SetTimeout 3000])
    end.
Proof.
  unfold App.handleGetRecommendations, App.getRecommendations.
  cbv [mbind App.M_bind App.read].
  destruct (bool_decide _ && bool_decide _); [reflexivity|].
  destruct (server _ _) as [[|recommendations]|]; reflexivity.
Qed.

(** C2.  With an empty browsing history and no selected category the handler
    posts nothing, leaves the recommendation list as it was and shows a
    notification of severity [warning]; in every other state it posts the
    recommendation request, with the current preferences and history. *)
Theorem handleGetRecommendations_guard
    (server : Preferences → list Z → App.Response) (st : App.State) :
  let run := App.handleGetRecommendations server st in
  (App.browsingHistory st = [] → categories (App.userPreferences st) = [] →
   (∀ p h, App.PostRecommendations p h ∉ run.2)
   ∧ App.recommendations run.1.2 = App.recommendations st
   ∧ App.type <$> App.notification run.1.2 = Some "warning")
  ∧ (¬ (App.browsingHistory st = [] ∧ categories (App.userPreferences st) = []) →
     App.PostRecommendations (App.userPreferences st) (App.browsingHistory st)
       ∈ run.2).
Proof.
  intros run. subst run. rewrite handleGetRecommendations_run. cbv zeta.
  split.
  - intros -> ->. cbn. split; [|done].
    intros p h Hin. apply list_elem_of_singleton in Hin. discriminate.
  - intros Hne.
    destruct (App.browsingHistory st) as [|i h];
      destruct (categories (App.userPreferences st)) as [|c cs];
      [by destruct Hne| | |];
      cbn; destruct (server _ _) as [[|recommendations]|]; cbn; set_solver.
Qed.

Lemma handleGetRecommendations_guard_witness :
  (∀ p h, App.PostRecommendations p h
          ∉ (App.handleGetRecommendations (λ _ _, App.Rejected)
               App.initialState).2)
  ∧ App.PostRecommendations
      (mkPreferences "all" ["Shoes"] [] 0) []
    ∈ (App.handleGetRecommendations (λ _ _, App.Rejected)
         (App.mkState [] [] (mkPreferences "all" ["Shoes"] [] 0) [] [] EmptyString
            false false None)).2.
Proof.
  split.
  - destruct (handleGetRecommendations_guard (λ _ _, App.Rejected)
                App.initialState) as [Hguard _].
    apply Hguard; reflexivity.
  - destruct (handleGetRecommendations_guard (λ _ _, App.Rejected)
                (App.mkState [] [] (mkPreferences "all" ["Shoes"] [] 0) [] []
                   EmptyString false false None)) as [_ Hpost].
    apply Hpost. cbn. intros [_ Hc]. discriminate Hc.
Defined.

(** ** C3, C4: the catalogue filter *)

Lemma ge_true (a b : Q) : JS.ge a b = true ↔ (b <= a)%Q.
Proof. apply Qle_bool_iff. Qed.

Lemma le_true (a b : Q) : JS.le a b = true ↔ (a <= b)%Q.
Proof. apply Qle_bool_iff. Qed.

Lemma gt_true (a b : Q) : JS.gt a b = true ↔ (b < a)%Q.
Proof.
  unfold JS.gt. rewrite negb_true_iff, <- not_true_iff_false, Qle_bool_iff.
  split; [apply Qnot_le_lt|apply Qlt_not_le].
Qed.

(** With nothing typed and nothing selected every product of non-negative
    rating passes. *)
Lemma matches_no_preferences (p : Product) :
  (0 <= rating p)%Q →
  App.matches EmptyString (mkPreferences "all" [] [] 0) p = true.
Proof.
  intros Hr. unfold App.matches, App.matchesRating. cbn.
  by apply ge_true.
Qed.

(** C3.  On every catalogue of products of the data model, the filter with
    an empty search text, no selected category, no selected brand, the price
    range [all] and the minimum rating 0 returns the catalogue itself, in its
    order. *)
Theorem filterProducts_no_preferences (products : list Product) :
  Forall inDataModel products →
  App.filterProducts products EmptyString (mkPreferences "all" [] [] 0) = products.
Proof.
  intros Hr. unfold App.filterProducts. apply filter_all.
  eapply Forall_impl; [exact Hr|].
  intros p (_ & Hp & _). apply Is_true_true. by apply matches_no_preferences.
Qed.

Lemma filterProducts_no_preferences_witness :
  App.filterProducts
    [mkProduct 1 "Runner" "X" "Shoes" 30 4;
     mkProduct 2 "Cap" "Y" "Hats" 12 0;
     mkProduct 3 "Runner" "X" "Shoes" 30 (9 # 2)]
    EmptyString (mkPreferences "all" [] [] 0)
  = [mkProduct 1 "Runner" "X" "Shoes" 30 4;
     mkProduct 2 "Cap" "Y" "Hats" 12 0;
     mkProduct 3 "Runner" "X" "Shoes" 30 (9 # 2)].
Proof.
  apply filterProducts_no_preferences.
  repeat (apply Forall_cons_2;
          [repeat split; by apply Qle_bool_iff|]).
  apply Forall_nil_2.
Defined.

(** C4.  The product of price 30 passes the filter under the price range
    [0-50] and is dropped under [50-100]; in general a product passes the
    bucket [0-50] exactly when its price is at most 50, and the bucket
    [50-100] exactly when its price is above 50 and at most 100. *)
Theorem filterProducts_price_bucket :
  (∀ nm,
     App.filterProducts [mkProduct 1 nm "X" "Shoes" 30 4] EmptyString
       (mkPreferences "0-50" [] [] 0)
     = [mkProduct 1 nm "X" "Shoes" 30 4])
  ∧ (∀ nm,
     App.filterProducts [mkProduct 1 nm "X" "Shoes" 30 4] EmptyString
       (mkPreferences "50-100" [] [] 0)
     = [])
  ∧ (∀ cs bs r p,
     App.matchesPrice (mkPreferences "0-50" cs bs r) p = true
     ↔ (price p <= 50)%Q)
  ∧ (∀ cs bs r p,
     App.matchesPrice (mkPreferences "50-100" cs bs r) p = true
     ↔ (50 < price p)%Q ∧ (price p <= 100)%Q).
Proof.
  split; [|split; [|split]].
  - intros nm. reflexivity.
  - intros nm. reflexivity.
  - intros cs bs r p. unfold App.matchesPrice. cbn [priceRange].
    repeat case_bool_decide; try done. cbn [orb andb].
    rewrite !orb_false_r. apply le_true.
  - intros cs bs r p. unfold App.matchesPrice. cbn [priceRange].
    repeat case_bool_decide; try done. cbn [orb andb].
    rewrite !orb_false_r, andb_true_iff. by rewrite gt_true, le_true.
Qed.

(** ** C5: the category toggle *)

Lemma handleCategoryChange_elem (category : string) (prev : list string)
    (c : string) :
  c ∈ UserPreferences.handleCategoryChange category prev
  ↔ (c ∈ prev ∧ c ≠ category) ∨ (c = category ∧ category ∉ prev).
Proof.
  unfold UserPreferences.handleCategoryChange. case_bool_decide as Hin.
  - rewrite list_elem_of_filter. intuition congruence.
  - rewrite elem_of_app, list_elem_of_singleton.
    destruct (decide (c = category)); intuition congruence.
Qed.

(** C5.  The toggle adds the category when it is absent and removes it when
    it is present, and toggling the same category twice gives a selection with
    exactly the elements of the selection one started from. *)
Theorem handleCategoryChange_involution (category : string)
    (prev : list string) :
  (∀ c, c ∈ UserPreferences.handleCategoryChange category
              (UserPreferences.handleCategoryChange category prev)
        ↔ c ∈ prev)
  ∧ (∀ c, c ∈ UserPreferences.handleCategoryChange category prev
          ↔ (c ∈ prev ∧ c ≠ category) ∨ (c = category ∧ category ∉ prev)).
Proof.
  split; [|apply handleCategoryChange_elem].
  intros c. rewrite !handleCategoryChange_elem.
  destruct (decide (c = category)) as [->|Hne];
    destruct (decide (category ∈ prev)); intuition congruence.
Qed.

(** ** C6: the insights *)

Section Tables.
Context {V : Type}.
Implicit Types (o : JS.object V) (k : string) (v : V).

Lemma get_overwrite k v o k' :
  JS.get (JS.overwrite k v o) k'
  = if decide (k = k') then (λ _, v) <$> JS.get o k else JS.get o k'.
Proof.
  induction o as [|[k1 v1] o IH]; cbn.
  - by case_decide.
  - destruct (decide (k1 = k)) as [->|Hne].
    + rewrite (bool_decide_eq_true_2 (k = k)) by done. cbn.
      destruct (decide (k = k')).
      * by rewrite bool_decide_eq_true_2.
      * by rewrite bool_decide_eq_false_2.
    + rewrite (bool_decide_eq_false_2 (k1 = k)) by done. cbn. rewrite IH.
      destruct (decide (k = k')) as [->|]; [|done].
      by rewrite bool_decide_eq_false_2.
Qed.

Lemma get_create k v o k' :
  JS.get o k = None →
  JS.get (JS.create k v o) k'
  = if decide (k = k') then Some v else JS.get o k'.
Proof.
  induction o as [|[k1 v1] o IH]; cbn.
  - intros _. destruct (decide (k = k')).
    + by rewrite bool_decide_eq_true_2.
    + by rewrite bool_decide_eq_false_2.
  - case_bool_decide as Hk1; [done|]. intros Hnone.
    destruct (JS.precedes k k1); cbn.
    + destruct (decide (k = k')).
      * by rewrite bool_decide_eq_true_2.
      * by rewrite (bool_decide_eq_false_2 (k = k')).
    + rewrite IH by done. destruct (decide (k = k')) as [<-|]; [|done].
      by rewrite bool_decide_eq_false_2.
Qed.

Lemma get_assign k v o k' :
  JS.get (JS.assign k v o) k'
  = if decide (k = k') then Some v else JS.get o k'.
Proof.
  unfold JS.assign. destruct (JS.get o k) as [w|] eqn:Hk.
  - rewrite get_overwrite. case_decide; [by rewrite Hk|done].
  - by apply get_create.
Qed.

Lemma keys_overwrite k v o :
  (JS.overwrite k v o).*1 = o.*1.
Proof.
  induction o as [|[k1 v1] o IH]; [done|]. cbn.
  case_bool_decide; cbn; congruence.
Qed.

Lemma keys_create k v o :
  (JS.create k v o).*1 ≡ₚ k :: o.*1.
Proof.
  induction o as [|[k1 v1] o IH]; [done|]. cbn.
  destruct (JS.precedes k k1); cbn; [done|].
  rewrite IH. apply Permutation_swap.
Qed.

(** A key that is no array index is created at the end of the table. *)
Lemma create_plain k v o :
  JS.arrayIndex k = None → JS.create k v o = o ++ [(k, v)].
Proof.
  intros Hk. induction o as [|[k1 v1] o IH]; [done|]. cbn.
  unfold JS.precedes. rewrite Hk. by rewrite IH.
Qed.

Lemma get_None_keys k o : JS.get o k = None ↔ k ∉ o.*1.
Proof.
  induction o as [|[k1 v1] o IH]; cbn.
  - split; [intros _; apply not_elem_of_nil|done].
  - rewrite not_elem_of_cons. case_bool_decide; [|rewrite IH];
      intuition congruence.
Qed.

Lemma keys_assign_NoDup k v o :
  NoDup o.*1 → NoDup (JS.assign k v o).*1.
Proof.
  intros Hnd. unfold JS.assign. destruct (JS.get o k) eqn:Hk.
  - by rewrite keys_overwrite.
  - rewrite keys_create. apply NoDup_cons. split; [|done].
    by apply get_None_keys.
Qed.

Lemma elem_of_get k v o : (k, v) ∈ o → NoDup o.*1 → JS.get o k = Some v.
Proof.
  induction o as [|[k1 v1] o IH]; intros Hin Hnd.
  - by destruct (not_elem_of_nil (k, v)).
  - cbn in *. apply NoDup_cons in Hnd as [Hk1 Hnd].
    rewrite elem_of_cons in Hin. destruct Hin as [Heq|Hin].
    + injection Heq as -> ->. by rewrite bool_decide_eq_true_2.
    + rewrite bool_decide_eq_false_2; [by apply IH|].
      intros ->. apply Hk1. apply list_elem_of_fmap. by exists (k, v).
Qed.

Lemma get_elem_of k v o : JS.get o k = Some v → (k, v) ∈ o.
Proof.
  induction o as [|[k1 v1] o IH]; cbn; [done|].
  case_bool_decide; intros Hget.
  - injection Hget as ->. subst. apply elem_of_cons. by left.
  - apply elem_of_cons. right. by apply IH.
Qed.
End Tables.

Section Occurrences.
Context (key : BrowsingHistory.Entry → string).
Implicit Types (l : list BrowsingHistory.Entry) (k : string).

Lemma occurrences_snoc k l p :
  occurrences key k (l ++ [p])
  = (occurrences key k l + if decide (key p = k) then 1 else 0)%nat.
Proof.
  unfold occurrences. rewrite filter_app, length_app. f_equal.
  destruct (decide (key p = k)).
  - by rewrite filter_cons_True.
  - by rewrite filter_cons_False.
Qed.

Lemma occurrences_pos l k :
  (0 < occurrences key k l)%nat ↔ k ∈ map key l.
Proof.
  unfold occurrences. induction l as [|p l IH]; cbn [map].
  - rewrite elem_of_nil. cbn. split; [lia|done].
  - rewrite elem_of_cons, <- IH. destruct (decide (key p = k)).
    + rewrite filter_cons_True by done. cbn [length]. split; [auto|lia].
    + rewrite filter_cons_False by done. intuition congruence.
Qed.

End Occurrences.

Section Counting.
Context (memberText : string → string) (key : BrowsingHistory.Entry → string).
Implicit Types (l : list BrowsingHistory.Entry) (k : string).

Lemma countBy_snoc l p :
  BrowsingHistory.countBy memberText key (l ++ [p])
  = BrowsingHistory.store (key p)
      (BrowsingHistory.increment memberText
         (BrowsingHistory.countBy memberText key l) (key p))
      (BrowsingHistory.countBy memberText key l).
Proof. unfold BrowsingHistory.countBy. by rewrite foldl_app. Qed.

Lemma store_plain k v (acc : JS.object BrowsingHistory.Count) :
  JS.inherited k = false → BrowsingHistory.store k v acc = JS.assign k v acc.
Proof.
  intros Hk. unfold BrowsingHistory.store.
  case_bool_decide as Heq; [by subst|done].
Qed.

Lemma countBy_NoDup l : NoDup (BrowsingHistory.countBy memberText key l).*1.
Proof.
  induction l as [|p l IH] using rev_ind; [apply NoDup_nil_2|].
  rewrite countBy_snoc. unfold BrowsingHistory.store.
  case_bool_decide; [done|]. by apply keys_assign_NoDup.
Qed.

(** A key of the list is a key of the table, unless it is [__proto__]. *)
Lemma countBy_keys_held l k :
  k ∈ map key l → k ≠ "__proto__" →
  k ∈ (BrowsingHistory.countBy memberText key l).*1.
Proof.
  intros Hin Hk. induction l as [|p l IH] using rev_ind.
  - by apply elem_of_nil in Hin.
  - rewrite map_app, elem_of_app in Hin. cbn in Hin.
    rewrite list_elem_of_singleton in Hin.
    rewrite countBy_snoc. unfold BrowsingHistory.store.
    destruct (decide (key p = k)) as [Heq|Hne].
    + rewrite bool_decide_eq_false_2 by congruence.
      destruct (decide (k ∈ (JS.assign (key p)
        (BrowsingHistory.increment memberText
           (BrowsingHistory.countBy memberText key l) (key p))
        (BrowsingHistory.countBy memberText key l)).*1)) as [|Hnot]; [done|].
      apply get_None_keys in Hnot. rewrite get_assign in Hnot.
      by rewrite decide_True in Hnot.
    + assert (Hl : k ∈ (BrowsingHistory.countBy memberText key l).*1).
      { apply IH. destruct Hin as [|]; [done|congruence]. }
      case_bool_decide; [done|].
      destruct (decide (k ∈ (JS.assign (key p)
        (BrowsingHistory.increment memberText
           (BrowsingHistory.countBy memberText key l) (key p))
        (BrowsingHistory.countBy memberText key l)).*1)) as [|Hnot]; [done|].
      apply get_None_keys in Hnot. rewrite get_assign in Hnot.
      rewrite decide_False in Hnot by done.
      by apply get_None_keys in Hnot.
Qed.

Lemma countBy_nonempty l :
  (∃ p, p ∈ l ∧ key p ≠ "__proto__") →
  BrowsingHistory.countBy memberText key l ≠ [].
Proof.
  intros (p & Hp & Hk) Hnil.
  assert (Hin : key p ∈ (BrowsingHistory.countBy memberText key l).*1).
  { apply countBy_keys_held; [|done].
    apply list_elem_of_fmap. by exists p. }
  rewrite Hnil in Hin. by apply elem_of_nil in Hin.
Qed.

(** The table then holds, for each key that occurs, the number of its
    occurrences, and nothing else. *)
Lemma countBy_get l k :
  plain key l →
  JS.get (BrowsingHistory.countBy memberText key l) k
  = if decide (occurrences key k l = 0)%nat then None
    else Some (BrowsingHistory.Number (occurrences key k l)).
Proof.
  unfold plain. induction l as [|p l IH] using rev_ind; [done|].
  rewrite Forall_app, Forall_singleton. intros [Hl Hp].
  rewrite countBy_snoc, store_plain, get_assign, occurrences_snoc by done.
  destruct (decide (key p = k)) as [Heq|Hne].
  - subst k. unfold BrowsingHistory.increment. rewrite IH by done.
    repeat case_decide; try lia; cbn; rewrite ?Hp; do 2 f_equal; lia.
  - rewrite IH, Nat.add_0_r; done.
Qed.

Lemma countBy_elem_of l k v :
  plain key l →
  (k, v) ∈ BrowsingHistory.countBy memberText key l
  ↔ v = BrowsingHistory.Number (occurrences key k l)
    ∧ (0 < occurrences key k l)%nat.
Proof.
  intros Hl. split.
  - intros Hin. apply elem_of_get in Hin; [|apply countBy_NoDup].
    rewrite countBy_get in Hin by done. case_decide; [done|].
    injection Hin as <-. split; [done|lia].
  - intros [-> Hpos]. apply get_elem_of. rewrite countBy_get by done.
    case_decide; [lia|done].
Qed.

Lemma countBy_numbers l :
  plain key l →
  Forall (λ y, ∃ n, y.2 = BrowsingHistory.Number n)
    (BrowsingHistory.countBy memberText key l).
Proof.
  intros Hl. apply Forall_forall. intros [k v] Hin.
  apply countBy_elem_of in Hin as [-> _]; [|done]. by eexists.
Qed.

Lemma countBy_keys_elem_of l k :
  plain key l →
  k ∈ (BrowsingHistory.countBy memberText key l).*1 ↔ k ∈ map key l.
Proof.
  intros Hl. rewrite <- occurrences_pos. rewrite list_elem_of_fmap. split.
  - intros ([k' n] & -> & Hin). by apply countBy_elem_of in Hin as [-> ?].
  - intros Hpos. exists (k, BrowsingHistory.Number (occurrences key k l)).
    split; [done|]. by apply countBy_elem_of.
Qed.

(** When no key is an array index either, the table lists the keys in the
    order in which they are first met. *)
Lemma countBy_keys_snoc l p :
  plain key (l ++ [p]) →
  JS.arrayIndex (key p) = None →
  (BrowsingHistory.countBy memberText key (l ++ [p])).*1
  = if decide (key p ∈ map key l)
    then (BrowsingHistory.countBy memberText key l).*1
    else (BrowsingHistory.countBy memberText key l).*1 ++ [key p].
Proof.
  unfold plain. rewrite Forall_app, Forall_singleton. intros [Hl Hp] Hk.
  rewrite countBy_snoc, store_plain by done. unfold JS.assign.
  rewrite countBy_get by done. case_decide as Hocc; case_decide as Hin.
  - apply occurrences_pos in Hin. lia.
  - by rewrite create_plain, fmap_app.
  - apply keys_overwrite.
  - destruct Hin. apply occurrences_pos. lia.
Qed.

Lemma countBy_first_seen l x y :
  plain key l →
  Forall (λ p, JS.arrayIndex (key p) = None) l →
  enumeratedBefore x y (BrowsingHistory.countBy memberText key l).*1 →
  firstSeenBefore x y (map key l).
Proof.
  induction l as [|p l IH] using rev_ind.
  - intros _ _ (pre & post & Heq & _). by destruct pre.
  - intros Hplain. rewrite Forall_app, Forall_singleton. intros [Hl Hp].
    rewrite countBy_keys_snoc, map_app by done. cbn [map].
    apply Forall_app in Hplain as Hplain'. destruct Hplain' as [Hpl _].
    case_decide as Hin.
    + intros Hb. destruct (IH Hpl Hl Hb) as (l1 & l2 & -> & Hy & Hx).
      exists l1, (l2 ++ [key p]). by rewrite <- app_assoc.
    + intros (pre & post & Heq & Hx).
      assert (post = [] ∨ ∃ post' z, post = post' ++ [z])
        as [->|(post' & z & ->)].
      { destruct post as [|z post' _] using rev_ind; eauto. }
      * apply app_inj_tail in Heq as [<- <-].
        exists (map key l), []. split; [done|]. split; [done|].
        by apply countBy_keys_elem_of.
      * rewrite app_comm_cons, app_assoc in Heq.
        apply app_inj_tail in Heq as [Heq <-].
        destruct (IH Hpl Hl) as (l1 & l2 & -> & Hy & Hx').
        { by exists pre, post'. }
        exists l1, (l2 ++ [key p]). by rewrite <- app_assoc.
Qed.
End Counting.

(** On numbers the reduction [(a, b) => a[1] > b[1] ? a : b] ends on the
    last entry of greatest count: no entry before it has more, every entry
    after it has less. *)
Lemma reduce_last_max (x : string * BrowsingHistory.Count)
    (l : list (string * BrowsingHistory.Count)) :
  Forall (λ y, ∃ n, y.2 = BrowsingHistory.Number n) (x :: l) →
  let r := foldl (λ a b : string * BrowsingHistory.Count,
                    if BrowsingHistory.greater a.2 b.2 then a else b) x l in
  ∃ pre post, x :: l = pre ++ r :: post
    ∧ Forall (λ y, numberOf y.2 ≤ numberOf r.2)%nat pre
    ∧ Forall (λ y, numberOf y.2 < numberOf r.2)%nat post.
Proof.
  induction l as [|y l IH] using rev_ind; cbn zeta.
  - exists [], []. by repeat split.
  - rewrite app_comm_cons, Forall_app, Forall_singleton. intros [Hl [n Hy]].
    rewrite foldl_app. cbn [foldl]. cbn zeta in IH.
    destruct (IH Hl) as (pre & post & Heq & Hpre & Hpost).
    set (r := foldl _ x l) in *.
    assert (Hr : ∃ m, r.2 = BrowsingHistory.Number m).
    { rewrite Forall_forall in Hl. apply Hl. rewrite Heq.
      apply elem_of_app. right. apply elem_of_cons. by left. }
    destruct Hr as [m Hr]. rewrite Hr, Hy in *. cbn [BrowsingHistory.greater].
    case_bool_decide as Hlt.
    + exists pre, (post ++ [y]). rewrite app_comm_cons, Heq, <- app_assoc.
      split; [done|]. rewrite Hr. split; [done|].
      apply Forall_app. split; [done|]. apply Forall_singleton.
      by rewrite Hy.
    + exists (x :: l), []. split; [done|]. split; [|done].
      rewrite Heq, Hy. cbn [numberOf] in *. apply Forall_app. split.
      * eapply Forall_impl; [exact Hpre|]. cbn. lia.
      * apply Forall_cons. split; [rewrite Hr; cbn; lia|].
        eapply Forall_impl; [exact Hpost|]. cbn. lia.
Qed.

Lemma top_last_max (count : JS.object BrowsingHistory.Count) :
  count ≠ [] →
  Forall (λ y, ∃ n, y.2 = BrowsingHistory.Number n) count →
  ∃ k n pre post, BrowsingHistory.top count = Some k
    ∧ count = pre ++ (k, BrowsingHistory.Number n) :: post
    ∧ Forall (λ y, numberOf y.2 ≤ n)%nat pre
    ∧ Forall (λ y, numberOf y.2 < n)%nat post.
Proof.
  destruct count as [|x l]; [done|]. intros _ Hnum.
  destruct (reduce_last_max x l Hnum) as (pre & post & Heq & Hpre & Hpost).
  unfold BrowsingHistory.top, JS.entries.
  cbn [JS.reduce1 fmap option_fmap option_map].
  set (r := foldl _ x l) in *.
  assert (Hr : ∃ m, r.2 = BrowsingHistory.Number m).
  { rewrite Forall_forall in Hnum. apply Hnum. rewrite Heq.
    apply elem_of_app. right. apply elem_of_cons. by left. }
  destruct Hr as [n Hr]. destruct r as [k v] eqn:Hrv. cbn in Hr. subst v.
  exists k, n, pre, post. by rewrite Heq.
Qed.

(** A table that is not empty has a first entry for the reduction to
    start from. *)
Lemma top_nonempty (count : JS.object BrowsingHistory.Count) :
  count ≠ [] → ∃ k, BrowsingHistory.top count = Some k.
Proof. destruct count as [|x l]; [done|]. intros _. by eexists. Qed.

(** The key reported for a non-empty list of keys that name no inherited
    member: it occurs, none occurs more often, and whatever occurs as often
    is listed before it in the table. *)
Lemma top_countBy (memberText : string → string)
    (key : BrowsingHistory.Entry → string)
    (l : list BrowsingHistory.Entry) :
  l ≠ [] →
  plain key l →
  ∃ k, BrowsingHistory.top (BrowsingHistory.countBy memberText key l) = Some k
    ∧ k ∈ map key l
    ∧ (∀ c, occurrences key c l ≤ occurrences key k l)%nat
    ∧ (∀ c, c ≠ k → occurrences key c l = occurrences key k l →
         enumeratedBefore c k
           (JS.entries (BrowsingHistory.countBy memberText key l)).*1).
Proof.
  intros Hne Hplain.
  destruct (top_last_max (BrowsingHistory.countBy memberText key l))
    as (k & n & pre & post & Htop & Heq & Hpre & Hpost).
  { apply countBy_nonempty. destruct l as [|p l]; [done|].
    exists p. split; [apply elem_of_cons; by left|].
    apply Forall_cons in Hplain as [Hp _]. by intros Hk; rewrite Hk in Hp. }
  { by apply countBy_numbers. }
  assert (Hk : (k, BrowsingHistory.Number n)
               ∈ BrowsingHistory.countBy memberText key l).
  { rewrite Heq. apply elem_of_app. right. apply elem_of_cons. by left. }
  apply countBy_elem_of in Hk as [Hn Hpos]; [|done].
  injection Hn as Hn.
  assert (Hle : ∀ c v, (c, v) ∈ BrowsingHistory.countBy memberText key l →
                       (numberOf v ≤ n)%nat).
  { intros c v. rewrite Heq, elem_of_app, elem_of_cons.
    rewrite Forall_forall in Hpre. rewrite Forall_forall in Hpost.
    intros [Hin|[Hin|Hin]].
    - apply (Hpre _ Hin).
    - injection Hin as _ ->. done.
    - specialize (Hpost _ Hin). cbn in Hpost. lia. }
  exists k. split; [done|]. split; [|split].
  - apply occurrences_pos. lia.
  - intros c. destruct (decide (occurrences key c l = 0)%nat) as [->|Hc]; [lia|].
    rewrite <- Hn.
    apply (Hle c (BrowsingHistory.Number (occurrences key c l))).
    apply countBy_elem_of; [done|]. split; [done|lia].
  - intros c Hck Hocc.
    assert (Hc : (c, BrowsingHistory.Number n)
                 ∈ BrowsingHistory.countBy memberText key l).
    { apply countBy_elem_of; [done|]. split; [congruence|lia]. }
    rewrite Heq, elem_of_app, elem_of_cons in Hc.
    unfold JS.entries. rewrite Heq, fmap_app. cbn [fmap list_fmap fst].
    exists pre.*1, post.*1. split; [done|].
    destruct Hc as [Hin|[Hin|Hin]].
    + apply list_elem_of_fmap. by exists (c, BrowsingHistory.Number n).
    + congruence.
    + rewrite Forall_forall in Hpost. specialize (Hpost _ Hin).
      cbn in Hpost. lia.
Qed.

(** The four insights, once both count tables have an entry. *)
Lemma insights_nonempty (memberText : string → string)
    (round : Q → Q) (toFixed : Q → nat → string)
    (hp : list BrowsingHistory.Entry) (topCategory topBrand : string) :
  hp ≠ [] →
  BrowsingHistory.top
    (BrowsingHistory.countBy memberText
       (λ p, category (BrowsingHistory.base p)) hp)
  = Some topCategory →
  BrowsingHistory.top
    (BrowsingHistory.countBy memberText
       (λ p, brand (BrowsingHistory.base p)) hp)
  = Some topBrand →
  BrowsingHistory.insights memberText round toFixed hp
  = Some [ "Most viewed category: " +:+ topCategory;
           "Favorite brand: " +:+ topBrand;
           "Average price: $" +:+
             toFixed (BrowsingHistory.average round
                        (λ p, price (BrowsingHistory.base p)) hp) 2%nat;
           "Average rating: " +:+
             toFixed (BrowsingHistory.average round
                        (λ p, rating (BrowsingHistory.base p)) hp) 1%nat
             +:+ "/5" ].
Proof.
  intros Hne Hc Hb. unfold BrowsingHistory.insights.
  rewrite bool_decide_eq_false_2 by (by destruct hp).
  cbv zeta. rewrite Hc, Hb. reflexivity.
Qed.

(** C6, as the code has it.  For an empty derived list the insights are
    empty.  Take a non-empty one in which no category names a member that an
    object literal inherits from [Object.prototype], and in which some brand
    is not [__proto__], so that the brand table has an entry.  The first
    insight then names a category of the list that no category outnumbers; a
    different category with the same count stands before the reported one in
    the enumeration of the count table, which for categories that are no
    array indices means that it was met first: ties go to the category met
    last.  For three such entries of categories A, A, B the insight names
    A. *)
Theorem insights_most_viewed (memberText : string → string)
    (round : Q → Q) (toFixed : Q → nat → string)
    (hp : list BrowsingHistory.Entry) :
  let cat := λ p, category (BrowsingHistory.base p) in
  let counted :=
    Forall (λ p, JS.inherited (cat p) = false) hp
    ∧ ∃ p, p ∈ hp ∧ brand (BrowsingHistory.base p) ≠ "__proto__" in
  (hp = [] → BrowsingHistory.insights memberText round toFixed hp = Some [])
  ∧ (hp ≠ [] → counted →
     ∃ topCategory rest,
       BrowsingHistory.insights memberText round toFixed hp
       = Some (("Most viewed category: " +:+ topCategory) :: rest)
       ∧ topCategory ∈ map cat hp
       ∧ (∀ c, occurrences cat c hp ≤ occurrences cat topCategory hp)%nat
       ∧ (∀ c, c ≠ topCategory →
            occurrences cat c hp = occurrences cat topCategory hp →
            enumeratedBefore c topCategory
              (JS.entries (BrowsingHistory.countBy memberText cat hp)).*1
            ∧ (Forall (λ p, JS.arrayIndex (cat p) = None) hp →
               firstSeenBefore c topCategory (map cat hp))))
  ∧ (∀ a1 a2 b,
       hp = [a1; a2; b] → cat a1 = cat a2 → counted →
       ∃ rest, BrowsingHistory.insights memberText round toFixed hp
               = Some (("Most viewed category: " +:+ cat a1) :: rest)).
Proof.
  intros cat counted.
  assert (Hmain : hp ≠ [] → counted →
     ∃ topCategory rest,
       BrowsingHistory.insights memberText round toFixed hp
       = Some (("Most viewed category: " +:+ topCategory) :: rest)
       ∧ topCategory ∈ map cat hp
       ∧ (∀ c, occurrences cat c hp ≤ occurrences cat topCategory hp)%nat
       ∧ (∀ c, c ≠ topCategory →
            occurrences cat c hp = occurrences cat topCategory hp →
            enumeratedBefore c topCategory
              (JS.entries (BrowsingHistory.countBy memberText cat hp)).*1
            ∧ (Forall (λ p, JS.arrayIndex (cat p) = None) hp →
               firstSeenBefore c topCategory (map cat hp)))).
  { intros Hne [Hplain Hbrand].
    destruct (top_countBy memberText cat hp Hne Hplain)
      as (k & Hk & Hin & Hmax & Htie).
    destruct (top_nonempty (BrowsingHistory.countBy memberText
                (λ p, brand (BrowsingHistory.base p)) hp)) as [b Hb].
    { by apply countBy_nonempty. }
    eexists k, _. split; [exact (insights_nonempty _ _ _ _ _ _ Hne Hk Hb)|].
    split; [done|]. split; [done|].
    intros c Hck Hocc. split; [by apply Htie|].
    intros Hindex. apply (countBy_first_seen memberText); [done..|].
    by apply Htie. }
  split; [by intros ->|]. split; [exact Hmain|].
  intros a1 a2 b -> Heq Hcounted.
  destruct Hmain as (k & rest & Hins & Hin & Hmax & _); [done..|].
  exists rest. rewrite Hins. do 3 f_equal.
  cbn in Hin. rewrite !elem_of_cons, elem_of_nil in Hin.
  destruct Hin as [->|[->|[->|[]]]]; [done|done|].
  destruct (decide (cat b = cat a1)) as [|Hne]; [done|].
  specialize (Hmax (cat a1)). unfold occurrences in Hmax.
  rewrite !filter_cons, filter_nil in Hmax.
  rewrite <- Heq in Hmax.
  repeat case_decide; cbn in Hmax; first [lia|congruence].
Qed.

Lemma insights_most_viewed_witness :
  ∃ rest,
    BrowsingHistory.insights (λ _, "[object Object]") (λ x, x)
      (λ _ _, EmptyString)
      [BrowsingHistory.mkEntry (mkProduct 1 "Runner" "X" "Shoes" 30 4) 3 false 1;
       BrowsingHistory.mkEntry (mkProduct 2 "Boot" "Y" "Shoes" 80 5) 2 false 1;
       BrowsingHistory.mkEntry (mkProduct 3 "Cap" "X" "Hats" 12 3) 1 false 1]
    = Some ("Most viewed category: Shoes" :: rest).
Proof.
  destruct (insights_most_viewed (λ _, "[object Object]") (λ x, x)
      (λ _ _, EmptyString)
      [BrowsingHistory.mkEntry (mkProduct 1 "Runner" "X" "Shoes" 30 4) 3 false 1;
       BrowsingHistory.mkEntry (mkProduct 2 "Boot" "Y" "Shoes" 80 5) 2 false 1;
       BrowsingHistory.mkEntry (mkProduct 3 "Cap" "X" "Hats" 12 3) 1 false 1])
    as (_ & _ & H).
  apply (H _ _ _ eq_refl eq_refl). split.
  - repeat constructor.
  - eexists. split; [apply elem_of_cons; by left|discriminate].
Defined.

(** C6, as the claim has it, fails: of two categories met once each the
    insight names the second, not the one met first. *)
Lemma insights_tie_goes_to_last :
  let hp :=
    [BrowsingHistory.mkEntry (mkProduct 1 "Runner" "X" "Shoes" 30 4) 2 false 1;
     BrowsingHistory.mkEntry (mkProduct 2 "Cap" "Y" "Hats" 12 3) 1 false 1] in
  let cat := λ p, category (BrowsingHistory.base p) in
  occurrences cat "Shoes" hp = occurrences cat "Hats" hp
  ∧ firstSeenBefore "Shoes" "Hats" (map cat hp)
  ∧ BrowsingHistory.insights (λ _, "[object Object]") (λ x, x)
      (λ _ _, EmptyString) hp
    = Some [ "Most viewed category: Hats"; "Favorite brand: Y";
             "Average price: $"; "Average rating: /5" ].
Proof.
  cbv zeta. split; [reflexivity|]. split; [|reflexivity].
  exists ["Shoes"], []. split; [reflexivity|]. split.
  - rewrite list_elem_of_singleton. discriminate.
  - by apply list_elem_of_singleton.
Qed.

(** Why the categories must name no inherited member.  A category
    [constructor] reads the inherited function on its first visit, so its
    entry is a text, which compares with no number: of the categories
    constructor, constructor, Hats the insight names Hats.  The key
    [__proto__] is never stored: when it is the only category the table is
    empty and the reduction throws. *)
Lemma insights_inherited_category :
  let entry := λ i c,
    BrowsingHistory.mkEntry (mkProduct i "Item" "X" c 30 4) 1 false 1 in
  let memberText := λ k : string,
    if bool_decide (k = "__proto__") then "[object Object]"
    else "function Object() { [native code] }" in
  BrowsingHistory.countBy memberText (λ p, category (BrowsingHistory.base p))
    [entry 1 "constructor"; entry 2 "constructor"; entry 3 "Hats"]
  = [("constructor",
      BrowsingHistory.Text "function Object() { [native code] }11");
     ("Hats", BrowsingHistory.Number 1)]
  ∧ BrowsingHistory.insights memberText (λ x, x) (λ _ _, EmptyString)
      [entry 1 "constructor"; entry 2 "constructor"; entry 3 "Hats"]
    = Some [ "Most viewed category: Hats"; "Favorite brand: X";
             "Average price: $"; "Average rating: /5" ]
  ∧ BrowsingHistory.insights memberText (λ x, x) (λ _ _, EmptyString)
      [entry 1 "__proto__"]
    = None.
Proof. cbv zeta. by vm_compute. Qed.

(** ** C7: the sort of the history panel *)

Section Sorting.
Context {A : Type} (cmp : A → A → Q).
Implicit Types (x y : A) (l : list A).

Lemma inOrder_sublist x y l : inOrder x y l ↔ [x; y] `sublist_of` l.
Proof.
  split.
  - intros (l1 & l2 & l3 & ->).
    apply sublist_inserts_l, sublist_skip, sublist_inserts_l, sublist_skip.
    apply sublist_nil_l.
  - intros Hs. apply sublist_cons_l in Hs as (l1 & k & -> & Hs).
    apply sublist_cons_l in Hs as (l2 & l3 & -> & _). by exists l1, l2, l3.
Qed.

Lemma sort_insert_split x l :
  ∃ l1 l2, l = l1 ++ l2 ∧ JS.sort_insert cmp x l = l1 ++ x :: l2.
Proof.
  induction l as [|z l (l1 & l2 & -> & IH)]; cbn.
  - by exists [], [].
  - destruct (Qle_bool (cmp x z) 0).
    + by exists [], (z :: l1 ++ l2).
    + exists (z :: l1), l2. by rewrite IH.
Qed.

Lemma sort_insert_Permutation x l : JS.sort_insert cmp x l ≡ₚ x :: l.
Proof.
  destruct (sort_insert_split x l) as (l1 & l2 & -> & ->).
  symmetry. apply Permutation_middle.
Qed.

Lemma sort_Permutation l : JS.sort cmp l ≡ₚ l.
Proof.
  induction l as [|x l IH]; [done|]. cbn.
  by rewrite sort_insert_Permutation, IH.
Qed.

(** With a comparator that never ranks two elements each above the other,
    the result is in ascending order. *)
Lemma sort_insert_Sorted x l :
  (∀ a b, (0 < cmp a b)%Q → (cmp b a <= 0)%Q) →
  Sorted (λ a b, (cmp a b <= 0)%Q) l →
  Sorted (λ a b, (cmp a b <= 0)%Q) (JS.sort_insert cmp x l).
Proof.
  intros Hcmp. induction 1 as [|z l Hl IH Hz]; cbn.
  - by repeat constructor.
  - destruct (Qle_bool (cmp x z) 0) eqn:Hxz.
    + apply Qle_bool_iff in Hxz. by repeat constructor.
    + assert (Hzx : (cmp z x <= 0)%Q).
      { apply Hcmp, Qnot_le_lt. intros Hle.
        apply Qle_bool_iff in Hle. congruence. }
      constructor; [done|].
      destruct Hz as [|y l Hzy]; cbn; [by constructor|].
      destruct (Qle_bool (cmp x y) 0); by constructor.
Qed.

Lemma sort_Sorted l :
  (∀ a b, (0 < cmp a b)%Q → (cmp b a <= 0)%Q) →
  Sorted (λ a b, (cmp a b <= 0)%Q) (JS.sort cmp l).
Proof.
  intros Hcmp. induction l as [|x l IH]; cbn; [constructor|].
  by apply sort_insert_Sorted.
Qed.

(** Inserting an element disturbs no pair already in order. *)
Lemma sort_insert_inOrder z x y l :
  inOrder x y l → inOrder x y (JS.sort_insert cmp z l).
Proof.
  rewrite !inOrder_sublist. intros Hs.
  destruct (sort_insert_split z l) as (l1 & l2 & -> & ->).
  etrans; [exact Hs|]. apply sublist_app; [done|]. by apply sublist_cons.
Qed.

(** An inserted element stops before everything it does not exceed. *)
Lemma sort_insert_before x y l :
  (cmp x y <= 0)%Q → y ∈ l → inOrder x y (JS.sort_insert cmp x l).
Proof.
  intros Hxy. induction l as [|z l IH]; intros Hy.
  - by apply elem_of_nil in Hy.
  - cbn. destruct (Qle_bool (cmp x z) 0) eqn:Hxz.
    + apply list_elem_of_split in Hy as (l1 & l2 & ->).
      by exists [], l1, l2.
    + apply elem_of_cons in Hy as [->|Hy].
      * apply Qle_bool_iff in Hxy. congruence.
      * destruct (IH Hy) as (l1 & l2 & l3 & ->).
        by exists (z :: l1), l2, l3.
Qed.

(** The sort is stable: it never moves an element behind a later one that
    it does not exceed. *)
Lemma sort_stable x y l :
  (cmp x y <= 0)%Q → inOrder x y l → inOrder x y (JS.sort cmp l).
Proof.
  intros Hxy (l1 & l2 & l3 & ->).
  induction l1 as [|z l1 IH]; cbn.
  - apply sort_insert_before; [done|].
    fold (JS.sort cmp (l2 ++ y :: l3)). rewrite sort_Permutation.
    apply elem_of_app. right. apply elem_of_cons. by left.
  - by apply sort_insert_inOrder.
Qed.
End Sorting.

(** C7.  Sorting the history by name keeps what the filters let through and
    is stable: of two entries whose names compare equal, the one that stood
    first in the input stands first in the output. *)
Theorem processedProducts_name_stable
    (localeCompare : string → string → Z)
    (historyProducts : list BrowsingHistory.Entry)
    (searchQuery filterBy : string) (a b : BrowsingHistory.Entry) :
  localeCompare (name (BrowsingHistory.base a)) (name (BrowsingHistory.base b))
  = 0 →
  inOrder a b (BrowsingHistory.filtered historyProducts searchQuery filterBy) →
  inOrder a b
    (BrowsingHistory.processedProducts localeCompare historyProducts
       searchQuery filterBy "name")
  ∧ BrowsingHistory.processedProducts localeCompare historyProducts
      searchQuery filterBy "name"
    ≡ₚ BrowsingHistory.filtered historyProducts searchQuery filterBy.
Proof.
  intros Heq Hin. unfold BrowsingHistory.processedProducts.
  split; [|apply sort_Permutation].
  apply sort_stable; [|done].
  unfold BrowsingHistory.compare.
  rewrite bool_decide_eq_false_2, bool_decide_eq_true_2 by done.
  by rewrite Heq.
Qed.

Lemma processedProducts_name_stable_witness :
  inOrder
    (BrowsingHistory.mkEntry (mkProduct 1 "Runner" "X" "Shoes" 30 4) 3 false 1)
    (BrowsingHistory.mkEntry (mkProduct 3 "Runner" "Y" "Shoes" 45 5) 1 true 1)
    (BrowsingHistory.processedProducts
       (λ s t, match String.compare s t with Eq => 0 | Lt => -1 | Gt => 1 end)
       [BrowsingHistory.mkEntry (mkProduct 1 "Runner" "X" "Shoes" 30 4) 3 false 1;
        BrowsingHistory.mkEntry (mkProduct 2 "Cap" "X" "Hats" 12 3) 2 false 1;
        BrowsingHistory.mkEntry (mkProduct 3 "Runner" "Y" "Shoes" 45 5) 1 true 1]
       EmptyString "all" "name").
Proof.
  apply processedProducts_name_stable.
  - reflexivity.
  - eexists [], [_], []. reflexivity.
Defined.

(** ** C8: the confidence section of a recommendation card *)

Lemma getConfidenceColor_green (score : Q) :
  Recommendations.getConfidenceColor score = "#16a34a" ↔ (8 <= score)%Q.
Proof.
  unfold Recommendations.getConfidenceColor.
  destruct (JS.ge score 8) eqn:H8; [|destruct (JS.ge score 5) eqn:H5].
  - apply ge_true in H8. by split.
  - split; [done|]. intros Hle. apply ge_true in Hle. congruence.
  - split; [done|]. intros Hle. apply ge_true in Hle. congruence.
Qed.

Lemma getConfidenceColor_yellow (score : Q) :
  Recommendations.getConfidenceColor score = "#f59e0b"
  ↔ (5 <= score)%Q ∧ (score < 8)%Q.
Proof.
  unfold Recommendations.getConfidenceColor.
  destruct (JS.ge score 8) eqn:H8; [|destruct (JS.ge score 5) eqn:H5].
  - apply ge_true in H8. split; [done|]. intros [_ Hlt]. lra.
  - apply ge_true in H5. split; [|done]. intros _. split; [done|].
    apply Qnot_le_lt. intros Hle. apply ge_true in Hle. congruence.
  - split; [done|]. intros [Hle _]. apply ge_true in Hle. congruence.
Qed.

Lemma getConfidenceColor_red (score : Q) :
  Recommendations.getConfidenceColor score = "#ef4444" ↔ (score < 5)%Q.
Proof.
  unfold Recommendations.getConfidenceColor.
  destruct (JS.ge score 8) eqn:H8; [|destruct (JS.ge score 5) eqn:H5].
  - apply ge_true in H8. split; [done|]. lra.
  - apply ge_true in H5. split; [done|]. lra.
  - split; [|done]. intros _.
    apply Qnot_le_lt. intros Hle. apply ge_true in Hle. congruence.
Qed.

(** The colour of a score is that of the score clamped into [0, 10]: both
    thresholds lie inside the interval. *)
Lemma getConfidenceColor_clamp (score : Q) :
  Recommendations.getConfidenceColor (Recommendations.clamp score)
  = Recommendations.getConfidenceColor score.
Proof.
  unfold Recommendations.clamp.
  destruct (JS.le score 0) eqn:H0; [|destruct (JS.ge score 10) eqn:H10].
  - apply le_true in H0. transitivity "#ef4444".
    + by apply getConfidenceColor_red.
    + symmetry. apply getConfidenceColor_red. lra.
  - apply ge_true in H10. transitivity "#16a34a".
    + by apply getConfidenceColor_green.
    + symmetry. apply getConfidenceColor_green. lra.
  - done.
Qed.

(** C8, as the code has it.  The colour is green exactly for a score of at
    least 8, yellow exactly from 5 up to 8, red exactly below 5, and it is the
    colour the score clamped into [0, 10] would get.  The width of the fill
    is ten times the score itself, in percent: it agrees with the clamped
    value for a score within [0, 10], exceeds 100 for a score above 10 and is
    negative for a negative score.  The number shown is the score itself. *)
Theorem confidenceSection_rendering (rec : Recommendation) :
  let score := confidence_score rec in
  let view := Recommendations.confidenceSection rec in
  Recommendations.backgroundColor view
  = Recommendations.getConfidenceColor (Recommendations.clamp score)
  ∧ (Recommendations.backgroundColor view = "#16a34a" ↔ (8 <= score)%Q)
  ∧ (Recommendations.backgroundColor view = "#f59e0b"
     ↔ (5 <= score)%Q ∧ (score < 8)%Q)
  ∧ (Recommendations.backgroundColor view = "#ef4444" ↔ (score < 5)%Q)
  ∧ Recommendations.width view = (score * 10)%Q
  ∧ ((0 <= score)%Q → (score <= 10)%Q →
     (Recommendations.width view == Recommendations.clamp score * 10)%Q)
  ∧ ((10 < score)%Q → (100 < Recommendations.width view)%Q)
  ∧ ((score < 0)%Q → (Recommendations.width view < 0)%Q)
  ∧ Recommendations.shown view = score.
Proof.
  intros score view. subst view. cbn [Recommendations.confidenceSection
    Recommendations.backgroundColor Recommendations.width Recommendations.shown].
  fold score. repeat split.
  - by rewrite getConfidenceColor_clamp.
  - by apply getConfidenceColor_green.
  - by apply getConfidenceColor_green.
  - by apply getConfidenceColor_yellow.
  - by apply getConfidenceColor_yellow.
  - by apply getConfidenceColor_yellow.
  - by apply getConfidenceColor_red.
  - by apply getConfidenceColor_red.
  - intros H0 H10. unfold Recommendations.clamp.
    destruct (JS.le score 0) eqn:Hle; [|destruct (JS.ge score 10) eqn:Hge].
    + apply le_true in Hle. lra.
    + apply ge_true in Hge. lra.
    + reflexivity.
  - lra.
  - lra.
Qed.

Lemma confidenceSection_rendering_witness :
  (100 < Recommendations.width
           (Recommendations.confidenceSection
              (mkRecommendation (mkProduct 1 "Runner" "X" "Shoes" 30 4)
                 "similar to viewed items" 15)))%Q
  ∧ (Recommendations.width
       (Recommendations.confidenceSection
          (mkRecommendation (mkProduct 1 "Runner" "X" "Shoes" 30 4)
             "similar to viewed items" 7))
     == Recommendations.clamp 7 * 10)%Q.
Proof.
  split.
  - destruct (confidenceSection_rendering
                (mkRecommendation (mkProduct 1 "Runner" "X" "Shoes" 30 4)
                   "similar to viewed items" 15))
      as (_ & _ & _ & _ & _ & _ & Hover & _).
    apply Hover. reflexivity.
  - destruct (confidenceSection_rendering
                (mkRecommendation (mkProduct 1 "Runner" "X" "Shoes" 30 4)
                   "similar to viewed items" 7))
      as (_ & _ & _ & _ & _ & Hin & _).
    apply Hin; discriminate.
Defined.

(** C8, as the claim has it, fails: for the score 15, outside [0, 10], the
    width is 150 percent, not the 100 percent of the clamped value. *)
Lemma confidenceSection_width_not_clamped :
  let rec := mkRecommendation (mkProduct 1 "Runner" "X" "Shoes" 30 4)
               "similar to viewed items" 15 in
  (10 < confidence_score rec)%Q
  ∧ Recommendations.width (Recommendations.confidenceSection rec) = 150%Q
  ∧ (Recommendations.clamp (confidence_score rec) * 10 == 100)%Q
  ∧ ¬ (Recommendations.width (Recommendations.confidenceSection rec)
       == Recommendations.clamp (confidence_score rec) * 10)%Q.
Proof.
  cbv zeta. split; [reflexivity|]. split; [reflexivity|].
  split; [reflexivity|]. discriminate.
Qed.

(** ** C9, C10: the derived history list *)

(** The entry derived from one identifier of the history. *)
Lemma historyProducts_elem_of (now : Z) (history : list Z)
    (products : list Product) (timestamps : gmap Z Z) (favorites : gset Z)
    (e : BrowsingHistory.Entry) :
  e ∈ BrowsingHistory.historyProducts now history products timestamps favorites
  ↔ ∃ i p, i ∈ history ∧ BrowsingHistory.findProduct products i = Some p
      ∧ e = BrowsingHistory.mkEntry p
              (BrowsingHistory.viewedAtOf now timestamps i)
              (bool_decide (i ∈ favorites))
              (length (filter (λ histId, histId = i) history)).
Proof.
  unfold BrowsingHistory.historyProducts, BrowsingHistory.filterBoolean.
  rewrite list_elem_of_omap. split.
  - intros (o & Ho & He). cbn in He. subst o.
    apply list_elem_of_fmap in Ho as (i & Ho & Hi).
    destruct (BrowsingHistory.findProduct products i) as [p|] eqn:Hp; [|done].
    injection Ho as ->. by exists i, p.
  - intros (i & p & Hi & Hp & ->). eexists. split; [|done].
    apply list_elem_of_fmap. exists i. by rewrite Hp.
Qed.

Lemma findProduct_id (products : list Product) (i : Z) (p : Product) :
  BrowsingHistory.findProduct products i = Some p → id p = i.
Proof.
  unfold BrowsingHistory.findProduct. intros H.
  apply find_some in H as [_ H]. by apply bool_decide_eq_true in H.
Qed.

(** C9.  The remove handler calls none of the parent's callbacks, so the
    history list the parent owns stays as it is; of the component's own cells
    it changes the favourite set alone, from which it takes the identifier.
    The derived list keeps every entry, that of the removed identifier
    included: the entries of that identifier merely lose their favourite
    flag. *)
Theorem handleRemoveItem_frame (productId : Z) (st : BrowsingHistory.State) :
  let after := BrowsingHistory.handleRemoveItem productId st in
  after.2 = []
  ∧ BrowsingHistory.favorites after.1
    = BrowsingHistory.favorites st ∖ {[productId]}
  ∧ BrowsingHistory.timestamps after.1 = BrowsingHistory.timestamps st
  ∧ BrowsingHistory.viewMode after.1 = BrowsingHistory.viewMode st
  ∧ BrowsingHistory.sortBy after.1 = BrowsingHistory.sortBy st
  ∧ BrowsingHistory.filterBy after.1 = BrowsingHistory.filterBy st
  ∧ BrowsingHistory.searchQuery after.1 = BrowsingHistory.searchQuery st
  ∧ ∀ now history products,
      let derived s :=
        BrowsingHistory.historyProducts now history products
          (BrowsingHistory.timestamps s) (BrowsingHistory.favorites s) in
      derived after.1
      = map (λ e, if bool_decide (id (BrowsingHistory.base e) = productId)
                  then BrowsingHistory.mkEntry (BrowsingHistory.base e)
                         (BrowsingHistory.viewedAt e) false
                         (BrowsingHistory.viewCount e)
                  else e)
            (derived st)
      ∧ (∀ e, e ∈ derived st → id (BrowsingHistory.base e) = productId →
           BrowsingHistory.mkEntry (BrowsingHistory.base e)
             (BrowsingHistory.viewedAt e) false (BrowsingHistory.viewCount e)
           ∈ derived after.1).
Proof.
  cbn. repeat (split; [done|]). intros now history products.
  assert (Hmap :
    BrowsingHistory.historyProducts now history products
      (BrowsingHistory.timestamps st)
      (BrowsingHistory.favorites st ∖ {[productId]})
    = map (λ e, if bool_decide (id (BrowsingHistory.base e) = productId)
                then BrowsingHistory.mkEntry (BrowsingHistory.base e)
                       (BrowsingHistory.viewedAt e) false
                       (BrowsingHistory.viewCount e)
                else e)
          (BrowsingHistory.historyProducts now history products
             (BrowsingHistory.timestamps st) (BrowsingHistory.favorites st))).
  { unfold BrowsingHistory.historyProducts, BrowsingHistory.filterBoolean.
    change (map ?f ?l) with (f <$> l). rewrite list_fmap_omap.
    apply list_omap_ext, Forall2_fmap, Forall_Forall2_diag, Forall_forall.
    intros i _.
    destruct (BrowsingHistory.findProduct products i) as [p|] eqn:Hp; [|done].
    cbn. rewrite (findProduct_id _ _ _ Hp). f_equal.
    destruct (decide (i = productId)) as [->|Hne].
    - rewrite (bool_decide_eq_true_2 (productId = productId)) by done.
      f_equal. apply bool_decide_eq_false_2.
      rewrite elem_of_difference, elem_of_singleton. tauto.
    - rewrite (bool_decide_eq_false_2 (i = productId)) by done.
      f_equal. apply bool_decide_ext.
      rewrite elem_of_difference, elem_of_singleton. tauto. }
  split; [exact Hmap|].
  intros e He Hid. rewrite Hmap. apply list_elem_of_fmap. exists e.
  split; [|done]. by rewrite bool_decide_eq_true_2.
Qed.

Lemma handleRemoveItem_frame_witness :
  BrowsingHistory.mkEntry (mkProduct 1 "Runner" "X" "Shoes" 30 4) 500 false 1
  ∈ BrowsingHistory.historyProducts 1000 [1; 2]
      [mkProduct 1 "Runner" "X" "Shoes" 30 4; mkProduct 2 "Cap" "Y" "Hats" 12 3]
      (BrowsingHistory.timestamps
         (BrowsingHistory.handleRemoveItem 1
            (BrowsingHistory.mkState "list" "recent" "all" EmptyString {[1; 2]}
               {[1 := 500]})).1)
      (BrowsingHistory.favorites
         (BrowsingHistory.handleRemoveItem 1
            (BrowsingHistory.mkState "list" "recent" "all" EmptyString {[1; 2]}
               {[1 := 500]})).1).
Proof.
  destruct (handleRemoveItem_frame 1
              (BrowsingHistory.mkState "list" "recent" "all" EmptyString {[1; 2]}
                 {[1 := 500]})) as (_ & _ & _ & _ & _ & _ & _ & Hderived).
  destruct (Hderived 1000 [1; 2]
              [mkProduct 1 "Runner" "X" "Shoes" 30 4;
               mkProduct 2 "Cap" "Y" "Hats" 12 3]) as [_ Hstays].
  apply (Hstays (BrowsingHistory.mkEntry
                   (mkProduct 1 "Runner" "X" "Shoes" 30 4) 500 true 1)).
  - vm_compute. apply elem_of_cons. by left.
  - reflexivity.
Defined.

(** C10.  In a history without duplicates every derived entry has the view
    count 1; the click handler keeps the history without duplicates, so this
    is the case after any series of clicks from the empty history. *)
Theorem historyProducts_viewCount (now : Z) (history : list Z)
    (products : list Product) (timestamps : gmap Z Z) (favorites : gset Z) :
  (NoDup history →
   Forall (λ e, BrowsingHistory.viewCount e = 1%nat)
     (BrowsingHistory.historyProducts now history products timestamps
        favorites))
  ∧ (∀ productId, NoDup history →
       NoDup (App.handleProductClick productId history))
  ∧ (∀ ids,
       Forall (λ e, BrowsingHistory.viewCount e = 1%nat)
         (BrowsingHistory.historyProducts now (App.clicks ids []) products
            timestamps favorites)).
Proof.
  assert (Hone : ∀ h, NoDup h →
    Forall (λ e, BrowsingHistory.viewCount e = 1%nat)
      (BrowsingHistory.historyProducts now h products timestamps favorites)).
  { intros h Hnd. apply Forall_forall. intros e He.
    apply historyProducts_elem_of in He as (i & p & Hi & _ & ->). cbn.
    by rewrite filter_eq_NoDup. }
  split; [apply Hone|]. split.
  - intros productId. apply handleProductClick_NoDup.
  - intros ids. apply Hone.
    induction ids as [|i ids IH] using rev_ind; [apply NoDup_nil_2|].
    rewrite clicks_snoc. by apply handleProductClick_NoDup.
Qed.

Lemma historyProducts_viewCount_witness :
  Forall (λ e, BrowsingHistory.viewCount e = 1%nat)
    (BrowsingHistory.historyProducts 1000 [3; 1; 2]
       [mkProduct 1 "Runner" "X" "Shoes" 30 4;
        mkProduct 2 "Cap" "Y" "Hats" 12 3] ∅ ∅).
Proof.
  apply historyProducts_viewCount. compute_done.
Defined.

(** * Further properties of the components *)

(** ** The catalogue filter *)

(** The filter selects, in the catalogue's order, products that satisfy the
    selection: a product of the result is in a selected category when
    categories are selected, of a selected brand when brands are selected,
    and rated at least the minimum. *)
Theorem filterProducts_selection (products : list Product)
    (searchQuery : string) (prefs : Preferences) :
  App.filterProducts products searchQuery prefs `sublist_of` products
  ∧ ∀ p, p ∈ App.filterProducts products searchQuery prefs →
      p ∈ products
      ∧ (categories prefs ≠ [] → category p ∈ categories prefs)
      ∧ (brands prefs ≠ [] → brand p ∈ brands prefs)
      ∧ (minRating prefs <= rating p)%Q.
Proof.
  unfold App.filterProducts. split; [apply sublist_filter|].
  intros p [Hm Hin]%list_elem_of_filter. split; [done|].
  apply Is_true_true in Hm. unfold App.matches in Hm.
  rewrite !andb_true_iff in Hm.
  destruct Hm as ((((_ & Hc) & Hb) & _) & Hr).
  split; [|split].
  - intros Hne. unfold App.matchesCategory in Hc.
    apply orb_true_iff in Hc as [Hc|Hc]; apply bool_decide_eq_true in Hc.
    + by destruct (categories prefs).
    + done.
  - intros Hne. unfold App.matchesBrand in Hb.
    apply orb_true_iff in Hb as [Hb|Hb]; apply bool_decide_eq_true in Hb.
    + by destruct (brands prefs).
    + done.
  - by apply ge_true.
Qed.

Lemma filterProducts_selection_witness :
  category (mkProduct 2 "Cap" "Y" "Hats" 12 3) ∈ ["Hats"].
Proof.
  destruct (filterProducts_selection
              [mkProduct 1 "Runner" "X" "Shoes" 30 4;
               mkProduct 2 "Cap" "Y" "Hats" 12 3]
              EmptyString (mkPreferences "all" ["Hats"] [] 0)) as [_ Hsel].
  destruct (Hsel (mkProduct 2 "Cap" "Y" "Hats" 12 3)) as (_ & Hcat & _).
  - vm_compute. apply elem_of_cons. by left.
  - apply Hcat. discriminate.
Defined.

Lemma matchesPrice_unknown_range (prefs : Preferences) (p : Product) :
  priceRange prefs ∉ ["all"; "0-50"; "50-100"; "100+"] →
  App.matchesPrice prefs p = false.
Proof.
  intros Hr. unfold App.matchesPrice.
  rewrite !bool_decide_eq_false_2; [done|..];
    intros Heq; apply Hr; rewrite Heq; compute_done.
Qed.

Lemma filter_unknown_range (products : list Product)
    (searchQuery : string) (prefs : Preferences) :
  priceRange prefs ∉ ["all"; "0-50"; "50-100"; "100+"] →
  App.filterProducts products searchQuery prefs = [].
Proof.
  intros Hr. unfold App.filterProducts.
  induction products as [|p products IH]; [done|].
  rewrite filter_cons_False; [done|].
  intros Hm%Is_true_true. unfold App.matches in Hm.
  rewrite (matchesPrice_unknown_range _ _ Hr) in Hm.
  by rewrite andb_false_r in Hm.
Qed.

(** A price range that is none of the four named ones lets no product
    through, whatever the catalogue, the search text and the rest of the
    preferences.  The preference panel reports the value of its slider as the
    price range: once that value has reached the shell, the filtered
    catalogue is empty. *)
Theorem filterProducts_unknown_range (products : list Product)
    (searchQuery : string) :
  (∀ prefs,
     priceRange prefs ∉ ["all"; "0-50"; "50-100"; "100+"] →
     App.filterProducts products searchQuery prefs = [])
  ∧ (∀ panel prev,
     UserPreferences.priceRange panel ∉ ["all"; "0-50"; "50-100"; "100+"] →
     App.filterProducts products searchQuery
       (App.handlePreferencesChange
          (UserPreferences.onPreferencesChange panel) prev) = []).
Proof.
  split.
  - intros prefs. apply filter_unknown_range.
  - intros panel prev Hr. by apply filter_unknown_range.
Qed.

Lemma filterProducts_unknown_range_witness :
  App.filterProducts [mkProduct 1 "Runner" "X" "Shoes" 30 4] EmptyString
    (App.handlePreferencesChange
       (UserPreferences.onPreferencesChange
          (UserPreferences.mkState [] [] "250"))
       (App.userPreferences App.initialState)) = [].
Proof.
  apply filterProducts_unknown_range. compute_done.
Defined.

(** The three bounded price ranges partition the products: every product
    passes exactly one of [0-50], [50-100] and [100+]. *)
Theorem matchesPrice_partition (cs bs : list string) (r : Q) (p : Product) :
  let low := App.matchesPrice (mkPreferences "0-50" cs bs r) p in
  let mid := App.matchesPrice (mkPreferences "50-100" cs bs r) p in
  let high := App.matchesPrice (mkPreferences "100+" cs bs r) p in
  (low = true ∧ mid = false ∧ high = false)
  ∨ (low = false ∧ mid = true ∧ high = false)
  ∨ (low = false ∧ mid = false ∧ high = true).
Proof.
  unfold App.matchesPrice. cbn [priceRange].
  repeat case_bool_decide; try done. cbn [orb andb].
  rewrite !orb_false_r. unfold JS.gt, JS.le.
  destruct (Qle_bool (price p) 50) eqn:H50;
    destruct (Qle_bool (price p) 100) eqn:H100; cbn; auto.
  apply Qle_bool_iff in H50.
  assert (Hle : (price p <= 100)%Q) by lra.
  apply Qle_bool_iff in Hle. congruence.
Qed.

(** ** The search text *)

Lemma append_String (c : ascii) (s t : string) :
  String c s +:+ t = String c (s +:+ t).
Proof. reflexivity. Qed.

Lemma prefix_app (sub s : string) :
  String.prefix sub s = true ↔ ∃ post, s = sub +:+ post.
Proof.
  revert s. induction sub as [|c sub IH]; intros [|d s]; cbn.
  - split; [intros _; by exists EmptyString|done].
  - split; [intros _; by exists (String d s)|done].
  - split; [done|]. by intros [post Heq].
  - destruct (Ascii.ascii_dec c d) as [->|Hne].
    + rewrite IH. split; intros [post Heq]; exists post;
        rewrite append_String in *; congruence.
    + split; [done|]. intros [post Heq]. rewrite append_String in Heq.
      congruence.
Qed.

(** [includes] is the substring test. *)
Lemma includes_app (s sub : string) :
  JS.includes s sub = true ↔ ∃ pre post, s = pre +:+ sub +:+ post.
Proof.
  induction s as [|c s IH]; cbn [JS.includes]; rewrite orb_true_iff, prefix_app.
  - split.
    + intros [[post Heq]|Hf]; [|done]. by exists EmptyString, post.
    + intros (pre & post & Heq). left. destruct pre; [by exists post|done].
  - rewrite IH. split.
    + intros [[post Heq]|(pre & post & Heq)].
      * by exists EmptyString, post.
      * exists (String c pre), post. by rewrite append_String, Heq.
    + intros (pre & post & Heq). destruct pre as [|d pre].
      * left. by exists post.
      * right. exists pre, post. rewrite append_String in Heq. congruence.
Qed.

Lemma lowerAscii_idemp (c : ascii) :
  JS.lowerAscii (JS.lowerAscii c) = JS.lowerAscii c.
Proof. by destruct c as [[] [] [] [] [] [] [] []]. Qed.

Lemma toLowerCase_idemp (s : string) :
  JS.toLowerCase (JS.toLowerCase s) = JS.toLowerCase s.
Proof.
  induction s as [|c s IH]; [done|]. cbn. by rewrite lowerAscii_idemp, IH.
Qed.

Lemma toLowerCase_empty (s : string) :
  JS.toLowerCase s = EmptyString ↔ s = EmptyString.
Proof. by destruct s. Qed.

Lemma toLowerCase_app (s t : string) :
  JS.toLowerCase (s +:+ t) = JS.toLowerCase s +:+ JS.toLowerCase t.
Proof.
  induction s as [|c s IH]; [done|].
  rewrite append_String. cbn [JS.toLowerCase]. by rewrite IH, append_String.
Qed.

Lemma append_assoc (s t u : string) : (s +:+ t) +:+ u = s +:+ t +:+ u.
Proof.
  induction s as [|c s IH]; [done|]. by rewrite !append_String, IH.
Qed.

Lemma append_empty_r (s : string) : s +:+ EmptyString = s.
Proof. induction s as [|c s IH]; [done|]. by rewrite append_String, IH. Qed.

Lemma includes_piece (s a b c : string) :
  JS.includes s (a +:+ b +:+ c) = true → JS.includes s b = true.
Proof.
  rewrite !includes_app. intros (pre & post & ->).
  exists (pre +:+ a), (c +:+ post). by rewrite !append_assoc.
Qed.

(** On ASCII texts the search ignores the case of the letters, of the text
    typed and of the product alike; a text that is, up to case, the name,
    the category or the brand of a product matches it; and when a text
    matches a product, so does every piece of the text. *)
Theorem matchesSearch_case_insensitive (searchQuery : string) (p : Product) :
  Forall JS.isAscii [searchQuery; name p; category p; brand p] →
  (∀ searchQuery' p',
     Forall JS.isAscii [searchQuery'; name p'; category p'; brand p'] →
     JS.toLowerCase searchQuery' = JS.toLowerCase searchQuery →
     JS.toLowerCase (name p') = JS.toLowerCase (name p) →
     JS.toLowerCase (category p') = JS.toLowerCase (category p) →
     JS.toLowerCase (brand p') = JS.toLowerCase (brand p) →
     App.matchesSearch searchQuery' p' = App.matchesSearch searchQuery p)
  ∧ (∀ field,
       field ∈ [name p; category p; brand p] →
       JS.toLowerCase searchQuery = JS.toLowerCase field →
       App.matchesSearch searchQuery p = true)
  ∧ (∀ before piece after,
       searchQuery = before +:+ piece +:+ after →
       App.matchesSearch searchQuery p = true →
       App.matchesSearch piece p = true).
Proof.
  intros _. split; [|split].
  - intros q' p' _ Hq Hn Hc Hb. unfold App.matchesSearch.
    rewrite Hq, Hn, Hc, Hb. do 3 f_equal. apply bool_decide_ext.
    rewrite <- (toLowerCase_empty q'), <- (toLowerCase_empty searchQuery).
    by rewrite Hq.
  - intros field Hin Hq. unfold App.matchesSearch. rewrite Hq.
    assert (Hself : JS.includes (JS.toLowerCase field) (JS.toLowerCase field)
                    = true).
    { apply includes_app. exists EmptyString, EmptyString.
      symmetry. apply append_empty_r. }
    rewrite !elem_of_cons, elem_of_nil in Hin.
    destruct Hin as [->|[->|[->|[]]]]; rewrite Hself;
      by rewrite ?orb_true_r.
  - intros a b c -> . unfold App.matchesSearch.
    rewrite !toLowerCase_app, !orb_true_iff, !bool_decide_eq_true.
    intros [[[Hq|H]|H]|H].
    + left. left. left. destruct a; [|done]. by destruct b.
    + left. left. right. by apply includes_piece in H.
    + left. right. by apply includes_piece in H.
    + right. by apply includes_piece in H.
Qed.

Lemma matchesSearch_case_insensitive_witness :
  App.matchesSearch "RUNNER" (mkProduct 1 "Trail Runner" "Acme" "Shoes" 30 4)
  = App.matchesSearch "runner" (mkProduct 1 "trail runner" "ACME" "shoes" 30 4)
  ∧ App.matchesSearch "shoes"
      (mkProduct 1 "trail runner" "ACME" "shoes" 30 4) = true
  ∧ App.matchesSearch "run"
      (mkProduct 1 "trail runner" "ACME" "shoes" 30 4) = true.
Proof.
  destruct (matchesSearch_case_insensitive "runner"
              (mkProduct 1 "trail runner" "ACME" "shoes" 30 4))
    as (Hcase & _ & Hpiece); [compute_done|].
  destruct (matchesSearch_case_insensitive "shoes"
              (mkProduct 1 "trail runner" "ACME" "shoes" 30 4))
    as (_ & Hfield & _); [compute_done|].
  split; [|split].
  - apply Hcase; [compute_done|reflexivity..].
  - apply (Hfield "shoes"); [|reflexivity].
    apply elem_of_cons. right. apply elem_of_cons. by left.
  - apply (Hpiece EmptyString "run" "ner"); reflexivity.
Defined.

(** ** The browsing history as a recency list *)

Lemma take_filter_ne (i : Z) (n : nat) (l : list Z) :
  NoDup l →
  take n (filter (λ j, j ≠ i) (take (S n) l))
  = take n (filter (λ j, j ≠ i) l).
Proof.
  revert n. induction l as [|x l IH]; intros n Hnd; [done|].
  apply NoDup_cons in Hnd as [Hx Hnd]. cbn [take].
  destruct (decide (x = i)) as [->|Hne].
  - rewrite !filter_cons_False by tauto.
    rewrite !filter_ne_fresh; [by rewrite take_idemp|done|].
    intros Hin. by apply subseteq_take in Hin.
  - rewrite !filter_cons_True by done. destruct n as [|n]; [done|].
    cbn [take]. by rewrite IH.
Qed.

Lemma remove_dups_snoc (i : Z) (ids : list Z) :
  remove_dups (ids ++ [i]) = filter (λ j, j ≠ i) (remove_dups ids) ++ [i].
Proof.
  induction ids as [|x ids IH]; [done|]. cbn [app remove_dups].
  destruct (decide_rel elem_of x (ids ++ [i])) as [Hin|Hin];
    destruct (decide_rel elem_of x ids) as [Hin'|Hin'].
  - done.
  - apply elem_of_app in Hin as [Hin|Hin]; [done|].
    apply list_elem_of_singleton in Hin. subst x.
    by rewrite filter_cons_False by tauto.
  - destruct Hin. apply elem_of_app. by left.
  - rewrite filter_cons_True.
    + cbn. by rewrite IH.
    + intros ->. apply Hin, elem_of_app. right. by apply list_elem_of_singleton.
Qed.

(** After any series of clicks from the empty history, the history lists the
    products clicked, each once, the most recently clicked first, and keeps
    the first twenty of them. *)
Theorem clicks_recency (ids : list Z) :
  App.clicks ids [] = take 20 (reverse (remove_dups ids)).
Proof.
  induction ids as [|i ids IH] using rev_ind; [done|].
  rewrite clicks_snoc, IH, remove_dups_snoc, reverse_snoc.
  rewrite handleProductClick_unfold. cbn [take]. f_equal.
  rewrite <- filter_reverse. apply take_filter_ne.
  rewrite reverse_Permutation. apply NoDup_remove_dups.
Qed.

(** ** The outcomes of a recommendation request *)

(** Whatever the server answers, the handler leaves the catalogue, the
    filtered catalogue, the preferences, the browsing history, the search
    text and the catalogue's loading flag as they were, ends with a
    notification on display and arms one timer of three seconds. *)
Theorem handleGetRecommendations_frame
    (server : Preferences → list Z → App.Response) (st : App.State) :
  let run := App.handleGetRecommendations server st in
  App.products run.1.2 = App.products st
  ∧ App.filteredProducts run.1.2 = App.filteredProducts st
  ∧ App.userPreferences run.1.2 = App.userPreferences st
  ∧ App.browsingHistory run.1.2 = App.browsingHistory st
  ∧ App.searchQuery run.1.2 = App.searchQuery st
  ∧ App.isLoadingProducts run.1.2 = App.isLoadingProducts st
  ∧ is_Some (App.notification run.1.2)
  ∧ ∃ before, run.2 = before ++ [App.SetTimeout 3000]
      ∧ ∀ ms, App.SetTimeout ms ∉ before.
Proof.
  intros run. subst run. rewrite handleGetRecommendations_run. cbv zeta.
  destruct (bool_decide _ && bool_decide _);
    [|destruct (server _ _) as [[|recommendations]|]]; cbn;
    repeat (split; [done|]).
  - exists []. split; [done|]. intros ms. apply not_elem_of_nil.
  - eexists [_; _]. split; [done|]. intros ms Hin.
    rewrite !elem_of_cons, elem_of_nil in Hin.
    destruct Hin as [|[|[]]]; discriminate.
  - eexists [_]. split; [done|]. intros ms Hin.
    apply list_elem_of_singleton in Hin. discriminate.
  - eexists [_; _; _]. split; [done|]. intros ms Hin.
    rewrite !elem_of_cons, elem_of_nil in Hin.
    destruct Hin as [|[|[|[]]]]; discriminate.
Qed.

(** When the request is issued, the loading flag is off at the end.  A
    request resolved with a body other than [null] replaces the
    recommendation list by the one received, or by the empty list when the
    body holds none, under a notification of severity [success].  A request
    resolved with the body [null], on which reading the member throws, and a
    rejected request keep the list under a notification of severity
    [error]. *)
Theorem handleGetRecommendations_outcome
    (server : Preferences → list Z → App.Response) (st : App.State) :
  ¬ (App.browsingHistory st = [] ∧ categories (App.userPreferences st) = []) →
  let run := App.handleGetRecommendations server st in
  App.isLoading run.1.2 = false
  ∧ match server (App.userPreferences st) (App.browsingHistory st) with
    | App.Resolved (App.Value recommendations) =>
        App.recommendations run.1.2 = default [] recommendations
        ∧ App.type <$> App.notification run.1.2 = Some "success"
    | App.Resolved App.Null | App.Rejected =>
        App.recommendations run.1.2 = App.recommendations st
        ∧ App.type <$> App.notification run.1.2 = Some "error"
    end.
Proof.
  intros Hne run. subst run. rewrite handleGetRecommendations_run. cbv zeta.
  rewrite (proj2 (andb_false_iff _ _)).
  - by destruct (server _ _) as [[|recommendations]|].
  - destruct (App.browsingHistory st); [|by left].
    destruct (categories (App.userPreferences st)); [|by right].
    by destruct Hne.
Qed.

Lemma handleGetRecommendations_outcome_witness :
  App.recommendations
    (App.handleGetRecommendations (λ _ _, App.Resolved (App.Value None))
       (App.mkState [] [] (mkPreferences "all" ["Shoes"] [] 0) []
          [mkRecommendation (mkProduct 1 "Runner" "X" "Shoes" 30 4)
             "viewed" 7]
          EmptyString false false None)).1.2 = []
  ∧ App.type <$> App.notification
      (App.handleGetRecommendations (λ _ _, App.Resolved App.Null)
         (App.mkState [] [] (mkPreferences "all" ["Shoes"] [] 0) []
            [mkRecommendation (mkProduct 1 "Runner" "X" "Shoes" 30 4)
               "viewed" 7]
            EmptyString false false None)).1.2 = Some "error".
Proof.
  split.
  - destruct (handleGetRecommendations_outcome
      (λ _ _, App.Resolved (App.Value None))
      (App.mkState [] [] (mkPreferences "all" ["Shoes"] [] 0) []
         [mkRecommendation (mkProduct 1 "Runner" "X" "Shoes" 30 4) "viewed" 7]
         EmptyString false false None)) as [_ [Hrecs _]].
    + cbn. intros [_ Hc]. discriminate Hc.
    + exact Hrecs.
  - destruct (handleGetRecommendations_outcome
      (λ _ _, App.Resolved App.Null)
      (App.mkState [] [] (mkPreferences "all" ["Shoes"] [] 0) []
         [mkRecommendation (mkProduct 1 "Runner" "X" "Shoes" 30 4) "viewed" 7]
         EmptyString false false None)) as [_ [_ Htype]].
    + cbn. intros [_ Hc]. discriminate Hc.
    + exact Htype.
Defined.

(** ** The preferences the panel reports *)

(** What the panel reports replaces the categories, the brands and the price
    range of the shell and leaves its minimum rating alone.  So, whatever the
    panel reports and however often, the minimum rating stays the initial 0
    and no product of the data model is excluded for its rating. *)
Theorem handlePreferencesChange_panel :
  (∀ panel prev,
     App.handlePreferencesChange (UserPreferences.onPreferencesChange panel)
       prev
     = mkPreferences (UserPreferences.priceRange panel)
         (UserPreferences.selectedCategories panel)
         (UserPreferences.selectedBrands panel) (minRating prev))
  ∧ (∀ panels,
       let prefs :=
         foldl (λ prev panel,
                  App.handlePreferencesChange
                    (UserPreferences.onPreferencesChange panel) prev)
               (App.userPreferences App.initialState) panels in
       minRating prefs = 0%Q
       ∧ ∀ p, inDataModel p → App.matchesRating prefs p = true).
Proof.
  split; [done|]. intros panels prefs.
  assert (Hr : minRating prefs = 0%Q).
  { subst prefs. induction panels as [|panel panels IH] using rev_ind; [done|].
    by rewrite foldl_app. }
  split; [done|]. intros p (_ & Hp & _).
  unfold App.matchesRating. rewrite Hr. by apply ge_true.
Qed.

Lemma handlePreferencesChange_panel_witness :
  App.matchesRating
    (foldl (λ prev panel,
              App.handlePreferencesChange
                (UserPreferences.onPreferencesChange panel) prev)
       (App.userPreferences App.initialState)
       [UserPreferences.mkState ["Shoes"] [] "all";
        UserPreferences.mkState ["Shoes"] ["X"] "120"])
    (mkProduct 1 "Runner" "X" "Shoes" 30 0) = true.
Proof.
  destruct handlePreferencesChange_panel as [_ Hfold].
  destruct (Hfold [UserPreferences.mkState ["Shoes"] [] "all";
                   UserPreferences.mkState ["Shoes"] ["X"] "120"])
    as [_ Hrating].
  apply Hrating. repeat split; by apply Qle_bool_iff.
Defined.

(** ** Sets in order of insertion *)

Section InsertionOrder.
Context {A : Type} `{!EqDecision A}.
Implicit Types (x y : A) (l s : list A).

Lemma setOf_snoc l x : JS.setOf (l ++ [x]) = JS.setAdd x (JS.setOf l).
Proof. unfold JS.setOf. by rewrite foldl_app. Qed.

Lemma elem_of_setAdd x y s : y ∈ JS.setAdd x s ↔ y = x ∨ y ∈ s.
Proof.
  unfold JS.setAdd. case_bool_decide as Hin.
  - split; [by right|]. by intros [->|?].
  - rewrite elem_of_app, list_elem_of_singleton. tauto.
Qed.

Lemma setAdd_NoDup x s : NoDup s → NoDup (JS.setAdd x s).
Proof.
  intros Hnd. unfold JS.setAdd. case_bool_decide as Hin; [done|].
  apply NoDup_app. split; [done|]. split; [|apply NoDup_singleton].
  intros y Hy Hyx. apply list_elem_of_singleton in Hyx. by subst y.
Qed.

Lemma setDelete_NoDup x s : NoDup s → NoDup (JS.setDelete x s).
Proof. apply NoDup_filter. Qed.

Lemma elem_of_setOf l x : x ∈ JS.setOf l ↔ x ∈ l.
Proof.
  induction l as [|y l IH] using rev_ind; [done|].
  rewrite setOf_snoc, elem_of_setAdd, IH, elem_of_app.
  rewrite list_elem_of_singleton. tauto.
Qed.

Lemma setOf_NoDup l : NoDup (JS.setOf l).
Proof.
  induction l as [|y l IH] using rev_ind; [apply NoDup_nil_2|].
  rewrite setOf_snoc. by apply setAdd_NoDup.
Qed.

(** The members stand in the order in which they are first met. *)
Lemma setOf_first_seen l x y :
  enumeratedBefore x y (JS.setOf l) → firstSeenBefore x y l.
Proof.
  induction l as [|z l IH] using rev_ind.
  - intros (pre & post & Heq & _). by destruct pre.
  - rewrite setOf_snoc. unfold JS.setAdd. case_bool_decide as Hin.
    + intros Hb. destruct (IH Hb) as (l1 & l2 & -> & Hy & Hx).
      exists l1, (l2 ++ [z]). by rewrite <- app_assoc.
    + intros (pre & post & Heq & Hx).
      assert (post = [] ∨ ∃ post' w, post = post' ++ [w])
        as [->|(post' & w & ->)].
      { destruct post as [|w post' _] using rev_ind; eauto. }
      * apply app_inj_tail in Heq as [<- <-].
        exists l, []. split; [done|]. split; [|by apply elem_of_setOf].
        by rewrite <- elem_of_setOf.
      * rewrite app_comm_cons, app_assoc in Heq.
        apply app_inj_tail in Heq as [Heq <-].
        destruct IH as (l1 & l2 & -> & Hy & Hx').
        { by exists pre, post'. }
        exists l1, (l2 ++ [z]). by rewrite <- app_assoc.
Qed.
End InsertionOrder.

(** ** The preference panel *)

(** The category options and the brand options list every category and every
    brand of the catalogue, each once, in the order in which the catalogue
    first shows it. *)
Theorem categories_brands_options (products : list Product) :
  (NoDup (UserPreferences.categories products)
   ∧ (∀ c, c ∈ UserPreferences.categories products
           ↔ ∃ p, p ∈ products ∧ category p = c)
   ∧ (∀ c d, enumeratedBefore c d (UserPreferences.categories products) →
             firstSeenBefore c d (map category products)))
  ∧ (NoDup (UserPreferences.brands products)
     ∧ (∀ b, b ∈ UserPreferences.brands products
             ↔ ∃ p, p ∈ products ∧ brand p = b)
     ∧ (∀ b d, enumeratedBefore b d (UserPreferences.brands products) →
               firstSeenBefore b d (map brand products))).
Proof.
  unfold UserPreferences.categories, UserPreferences.brands.
  split; (split; [apply setOf_NoDup|split; [|apply setOf_first_seen]]).
  - intros c. rewrite elem_of_setOf, list_elem_of_fmap.
    split; intros (p & ? & ?); by exists p.
  - intros b. rewrite elem_of_setOf, list_elem_of_fmap.
    split; intros (p & ? & ?); by exists p.
Qed.

Lemma categories_brands_options_witness :
  firstSeenBefore "Shoes" "Hats" ["Shoes"; "Hats"; "Shoes"].
Proof.
  destruct (categories_brands_options
              [mkProduct 1 "Runner" "X" "Shoes" 30 4;
               mkProduct 2 "Cap" "Y" "Hats" 12 3;
               mkProduct 3 "Boot" "X" "Shoes" 80 5]) as [(_ & _ & Horder) _].
  apply Horder. exists ["Shoes"], []. split; [reflexivity|].
  apply elem_of_cons. by left.
Defined.

Lemma handleBrandChange_elem (brand : string) (prev : list string)
    (b : string) :
  b ∈ UserPreferences.handleBrandChange brand prev
  ↔ (b ∈ prev ∧ b ≠ brand) ∨ (b = brand ∧ brand ∉ prev).
Proof.
  unfold UserPreferences.handleBrandChange. case_bool_decide as Hin.
  - rewrite list_elem_of_filter. intuition congruence.
  - rewrite elem_of_app, list_elem_of_singleton.
    destruct (decide (b = brand)); intuition congruence.
Qed.

(** The brand toggle adds the brand when it is absent and removes it when it
    is present.  It keeps a selection free of duplicates.  Toggling twice
    gives back the very list when the brand was absent; when it was present,
    the list comes back with that brand moved to the end. *)
Theorem handleBrandChange_toggle (brand : string) (prev : list string) :
  (∀ b, b ∈ UserPreferences.handleBrandChange brand prev
        ↔ (b ∈ prev ∧ b ≠ brand) ∨ (b = brand ∧ brand ∉ prev))
  ∧ (NoDup prev → NoDup (UserPreferences.handleBrandChange brand prev))
  ∧ (brand ∉ prev →
     UserPreferences.handleBrandChange brand
       (UserPreferences.handleBrandChange brand prev) = prev)
  ∧ (brand ∈ prev →
     UserPreferences.handleBrandChange brand
       (UserPreferences.handleBrandChange brand prev)
     = filter (λ b, b ≠ brand) prev ++ [brand]).
Proof.
  split; [apply handleBrandChange_elem|]. split; [|split].
  - intros Hnd. unfold UserPreferences.handleBrandChange.
    case_bool_decide as Hin; [by apply NoDup_filter|].
    apply NoDup_app. split; [done|]. split; [|apply NoDup_singleton].
    intros b Hb Hbb. apply list_elem_of_singleton in Hbb. by subst b.
  - intros Hout. unfold UserPreferences.handleBrandChange.
    rewrite (bool_decide_eq_false_2 (brand ∈ prev)) by done.
    rewrite bool_decide_eq_true_2
      by (apply elem_of_app; right; by apply list_elem_of_singleton).
    rewrite filter_app, filter_cons_False, filter_nil, app_nil_r by tauto.
    by apply filter_ne_fresh.
  - intros Hin. unfold UserPreferences.handleBrandChange.
    rewrite (bool_decide_eq_true_2 (brand ∈ prev)) by done.
    rewrite bool_decide_eq_false_2; [done|].
    intros Hf. apply list_elem_of_filter in Hf as [Hne _]. done.
Qed.

Lemma handleBrandChange_toggle_witness :
  UserPreferences.handleBrandChange "X"
    (UserPreferences.handleBrandChange "X" ["X"; "Y"]) = ["Y"; "X"]
  ∧ UserPreferences.handleBrandChange "Z"
      (UserPreferences.handleBrandChange "Z" ["X"; "Y"]) = ["X"; "Y"].
Proof.
  destruct (handleBrandChange_toggle "X" ["X"; "Y"]) as (_ & _ & _ & Hin).
  destruct (handleBrandChange_toggle "Z" ["X"; "Y"]) as (_ & _ & Hout & _).
  split.
  - apply Hin. compute_done.
  - apply Hout. compute_done.
Defined.

(** ** The history panel: derived entries *)

Lemma findProduct_is_Some (products : list Product) (i : Z) :
  is_Some (BrowsingHistory.findProduct products i) ↔ i ∈ map id products.
Proof.
  unfold BrowsingHistory.findProduct.
  induction products as [|p products IH]; cbn.
  - split; [by intros [? ?]|]. intros Hin. by apply elem_of_nil in Hin.
  - rewrite elem_of_cons. case_bool_decide as Hp.
    + split; [intros _; by left|]. by eexists.
    + rewrite IH. split; [by right|]. intros [?|?]; [congruence|done].
Qed.

Lemma resolved_ids (products : list Product)
    (entry : Z → option BrowsingHistory.Entry) (l : list Z) :
  (∀ i, match entry i with
        | Some e => id (BrowsingHistory.base e) = i ∧ i ∈ map id products
        | None => i ∉ map id products
        end) →
  map (λ e, id (BrowsingHistory.base e)) (omap (λ x, x) (map entry l))
  = filter (λ i, i ∈ map id products) l.
Proof.
  intros Hentry. induction l as [|i l IH]; [done|]. cbn -[filter] in *.
  specialize (Hentry i). destruct (entry i) as [e|].
  - destruct Hentry as [He Hin]. rewrite filter_cons_True by done.
    cbn. by rewrite He, IH.
  - by rewrite filter_cons_False.
Qed.

(** The derived list follows the history: it has one entry for each
    identifier that the catalogue resolves, in the order of the history, and
    silently none for the others.  Each entry carries a product of the
    catalogue with the identifier asked for. *)
Theorem historyProducts_resolved (now : Z) (history : list Z)
    (products : list Product) (timestamps : gmap Z Z) (favorites : gset Z) :
  let derived :=
    BrowsingHistory.historyProducts now history products timestamps
      favorites in
  map (λ e, id (BrowsingHistory.base e)) derived
  = filter (λ i, i ∈ map id products) history
  ∧ Forall (λ e, BrowsingHistory.base e ∈ products) derived
  ∧ (length derived ≤ length history)%nat.
Proof.
  cbv zeta.
  assert (Hids :
    map (λ e, id (BrowsingHistory.base e))
      (BrowsingHistory.historyProducts now history products timestamps
         favorites)
    = filter (λ i, i ∈ map id products) history).
  { unfold BrowsingHistory.historyProducts, BrowsingHistory.filterBoolean.
    apply resolved_ids. intros i.
    destruct (BrowsingHistory.findProduct products i) as [p|] eqn:Hp.
    - split; [by apply findProduct_id in Hp|].
      apply findProduct_is_Some. rewrite Hp. by eexists.
    - intros Hin%findProduct_is_Some. rewrite Hp in Hin. by destruct Hin. }
  split; [exact Hids|]. split.
  - apply Forall_forall. intros e He.
    apply historyProducts_elem_of in He as (i & p & _ & Hp & ->). cbn.
    unfold BrowsingHistory.findProduct in Hp.
    apply find_some in Hp as [Hp _]. by apply list_elem_of_In.
  - rewrite <- (length_map (λ e, id (BrowsingHistory.base e))), Hids.
    apply length_filter.
Qed.

(** ** The history panel: timestamps *)

Lemma stampMissing_lookup (now : Z) (history : list Z) (timestamps : gmap Z Z)
    (i : Z) :
  BrowsingHistory.stampMissing now history timestamps !! i
  = match timestamps !! i with
    | Some t => Some t
    | None => if decide (i ∈ history) then Some now else None
    end.
Proof.
  unfold BrowsingHistory.stampMissing.
  revert timestamps. induction history as [|j history IH]; intros timestamps.
  - cbn. by destruct (timestamps !! i).
  - cbn [foldl]. rewrite IH. case_bool_decide as Hj.
    + destruct (timestamps !! i) as [t|] eqn:Hi; [done|].
      destruct (decide (i = j)) as [->|Hne].
      * rewrite Hi in Hj. by destruct Hj.
      * apply decide_ext. rewrite elem_of_cons. tauto.
    + destruct (decide (i = j)) as [->|Hne].
      * rewrite lookup_insert_eq. destruct (timestamps !! j) eqn:Hi.
        { destruct Hj. by eexists. }
        rewrite decide_True by (apply elem_of_cons; by left). done.
      * rewrite lookup_insert_ne by done.
        destruct (timestamps !! i); [done|].
        apply decide_ext. rewrite elem_of_cons. tauto.
Qed.

(** The first timestamp effect gives a timestamp to every identifier of the
    history that has none and changes nothing else: timestamps already
    assigned keep their value, and identifiers outside the history are left
    as they are.  Running it again, at whatever time, changes nothing. *)
Theorem stampMissing_assigns_once (now : Z) (history : list Z)
    (timestamps : gmap Z Z) :
  let stamped := BrowsingHistory.stampMissing now history timestamps in
  (∀ i, i ∈ history → is_Some (stamped !! i))
  ∧ (∀ i t, timestamps !! i = Some t → stamped !! i = Some t)
  ∧ (∀ i, i ∈ history → timestamps !! i = None → stamped !! i = Some now)
  ∧ (∀ i, i ∉ history → stamped !! i = timestamps !! i)
  ∧ (∀ later, BrowsingHistory.stampMissing later history stamped = stamped).
Proof.
  cbv zeta. split; [|split; [|split; [|split]]].
  - intros i Hi. rewrite stampMissing_lookup.
    destruct (timestamps !! i); [by eexists|].
    rewrite decide_True by done. by eexists.
  - intros i t Hi. by rewrite stampMissing_lookup, Hi.
  - intros i Hi Hnone. rewrite stampMissing_lookup, Hnone.
    by rewrite decide_True.
  - intros i Hi. rewrite stampMissing_lookup.
    destruct (timestamps !! i); [done|]. by rewrite decide_False.
  - intros later. apply map_eq. intros i.
    rewrite (stampMissing_lookup later), (stampMissing_lookup now).
    destruct (timestamps !! i); [done|]. by case_decide.
Qed.

Lemma stampMissing_assigns_once_witness :
  BrowsingHistory.stampMissing 700 [3; 1] {[1 := 500]} !! 1 = Some 500
  ∧ BrowsingHistory.stampMissing 700 [3; 1] {[1 := 500]} !! 3 = Some 700.
Proof.
  destruct (stampMissing_assigns_once 700 [3; 1] {[1 := 500]})
    as (_ & Hkeep & Hnew & _).
  split.
  - apply Hkeep. reflexivity.
  - apply Hnew; [compute_done|reflexivity].
Defined.

(** After the two timestamp effects, the identifier at the front of the
    history carries the time of the second effect, every identifier of the
    history has a timestamp, and an identifier that is not at the front keeps
    the timestamp it had. *)
Theorem stampLatest_refreshes_front (now1 now2 : Z) (latest : Z)
    (rest : list Z) (timestamps : gmap Z Z) :
  let history := latest :: rest in
  let stamped :=
    BrowsingHistory.stampLatest now2 history
      (BrowsingHistory.stampMissing now1 history timestamps) in
  stamped !! latest = Some now2
  ∧ (∀ i, i ∈ history → is_Some (stamped !! i))
  ∧ (∀ i t, i ≠ latest → timestamps !! i = Some t → stamped !! i = Some t)
  ∧ (∀ now, now2 ≠ 0 →
       BrowsingHistory.viewedAtOf now stamped latest = now2).
Proof.
  cbv zeta. cbn [BrowsingHistory.stampLatest]. split; [|split; [|split]].
  - apply lookup_insert_eq.
  - intros i Hi. destruct (decide (i = latest)) as [->|Hne].
    + rewrite lookup_insert_eq. by eexists.
    + rewrite lookup_insert_ne by done.
      rewrite stampMissing_lookup. destruct (timestamps !! i); [by eexists|].
      rewrite decide_True by done. by eexists.
  - intros i t Hne Hi. rewrite lookup_insert_ne by done.
    by rewrite stampMissing_lookup, Hi.
  - intros now Hnow. unfold BrowsingHistory.viewedAtOf.
    rewrite lookup_insert_eq. by rewrite bool_decide_eq_false_2.
Qed.

Lemma stampLatest_refreshes_front_witness :
  BrowsingHistory.stampLatest 900 [3; 1]
    (BrowsingHistory.stampMissing 700 [3; 1] {[1 := 500]}) !! 1 = Some 500.
Proof.
  destruct (stampLatest_refreshes_front 700 900 3 [1] {[1 := 500]})
    as (_ & _ & Hkeep & _).
  apply Hkeep; [discriminate|reflexivity].
Defined.

(** ** The history panel: favourites *)

(** The favourite toggle flips the flag of its identifier and of no other,
    calls none of the parent's callbacks and leaves the other cells alone;
    toggling twice restores the state. *)
Theorem handleFavoriteToggle_flips (productId : Z)
    (st : BrowsingHistory.State) :
  let after := BrowsingHistory.handleFavoriteToggle productId st in
  after.2 = []
  ∧ (productId ∈ BrowsingHistory.favorites after.1
     ↔ productId ∉ BrowsingHistory.favorites st)
  ∧ (∀ i, i ≠ productId →
       (i ∈ BrowsingHistory.favorites after.1
        ↔ i ∈ BrowsingHistory.favorites st))
  ∧ BrowsingHistory.timestamps after.1 = BrowsingHistory.timestamps st
  ∧ BrowsingHistory.viewMode after.1 = BrowsingHistory.viewMode st
  ∧ BrowsingHistory.sortBy after.1 = BrowsingHistory.sortBy st
  ∧ BrowsingHistory.filterBy after.1 = BrowsingHistory.filterBy st
  ∧ BrowsingHistory.searchQuery after.1 = BrowsingHistory.searchQuery st
  ∧ (BrowsingHistory.handleFavoriteToggle productId after.1).1 = st.
Proof.
  destruct st as [vm sb fb sq favs ts]. cbn.
  split; [done|].
  destruct (decide (productId ∈ favs)) as [Hin|Hout].
  - rewrite (bool_decide_eq_true_2 (productId ∈ favs)) by done.
    split; [|split; [|repeat (split; [done|])]].
    + rewrite elem_of_difference, elem_of_singleton. tauto.
    + intros i Hne. rewrite elem_of_difference, elem_of_singleton. tauto.
    + unfold BrowsingHistory.setFavorites. cbn. f_equal.
      rewrite !(bool_decide_eq_true_2 (productId ∈ favs)) by done.
      rewrite bool_decide_eq_false_2
        by (rewrite elem_of_difference, elem_of_singleton; tauto).
      apply set_eq. intros i.
      rewrite elem_of_union, elem_of_difference, elem_of_singleton.
      destruct (decide (i = productId)) as [->|]; tauto.
  - rewrite (bool_decide_eq_false_2 (productId ∈ favs)) by done.
    split; [|split; [|repeat (split; [done|])]].
    + rewrite elem_of_union, elem_of_singleton. tauto.
    + intros i Hne. rewrite elem_of_union, elem_of_singleton. tauto.
    + unfold BrowsingHistory.setFavorites. cbn. f_equal.
      rewrite !(bool_decide_eq_false_2 (productId ∈ favs)) by done.
      rewrite bool_decide_eq_true_2
        by (rewrite elem_of_union, elem_of_singleton; tauto).
      apply set_eq. intros i.
      rewrite elem_of_difference, elem_of_union, elem_of_singleton.
      destruct (decide (i = productId)) as [->|]; tauto.
Qed.

Lemma handleFavoriteToggle_flips_witness :
  2 ∈ BrowsingHistory.favorites
        (BrowsingHistory.handleFavoriteToggle 1
           (BrowsingHistory.mkState "list" "recent" "all" EmptyString
              {[1; 2]} ∅)).1.
Proof.
  destruct (handleFavoriteToggle_flips 1
              (BrowsingHistory.mkState "list" "recent" "all" EmptyString
                 {[1; 2]} ∅)) as (_ & _ & Hother & _).
  apply Hother; [discriminate|]. compute_done.
Defined.

(** ** The history panel: filtering and sorting *)

Lemma Sorted_weaken {A} (R R' : A → A → Prop) (l : list A) :
  (∀ a b, R a b → R' a b) → Sorted R l → Sorted R' l.
Proof.
  intros HR. induction 1 as [|x l Hl IH Hx]; constructor; [done|].
  destruct Hx; constructor; auto.
Qed.

(** A comparator that never ranks an element above another leaves the array
    as it is. *)
Lemma sort_unordered {A} (cmp : A → A → Q) (l : list A) :
  (∀ a b, (cmp a b <= 0)%Q) → JS.sort cmp l = l.
Proof.
  intros Hcmp. induction l as [|x l IH]; [done|].
  change (JS.sort cmp (x :: l)) with (JS.sort_insert cmp x (JS.sort cmp l)).
  rewrite IH. destruct l as [|y l]; [done|]. cbn.
  by rewrite (proj2 (Qle_bool_iff _ _) (Hcmp x y)).
Qed.

Lemma compare_price (localeCompare : string → string → Z)
    (a b : BrowsingHistory.Entry) :
  BrowsingHistory.compare localeCompare "price" a b
  = (price (BrowsingHistory.base a) - price (BrowsingHistory.base b))%Q.
Proof. reflexivity. Qed.

Lemma compare_rating (localeCompare : string → string → Z)
    (a b : BrowsingHistory.Entry) :
  BrowsingHistory.compare localeCompare "rating" a b
  = (rating (BrowsingHistory.base b) - rating (BrowsingHistory.base a))%Q.
Proof. reflexivity. Qed.

Lemma compare_recent (localeCompare : string → string → Z)
    (a b : BrowsingHistory.Entry) :
  BrowsingHistory.compare localeCompare "recent" a b
  = inject_Z (BrowsingHistory.viewedAt b - BrowsingHistory.viewedAt a).
Proof. reflexivity. Qed.

Lemma inject_Z_nonpos (z : Z) : (inject_Z z <= 0)%Q ↔ z ≤ 0.
Proof. by rewrite (Zle_Qle z 0). Qed.

Lemma inject_Z_pos (z : Z) : (0 < inject_Z z)%Q ↔ 0 < z.
Proof. by rewrite (Zlt_Qlt 0 z). Qed.

(** Sorted by price the list ascends in price, sorted by rating it descends
    in rating, sorted by recency it descends in viewing time: every entry
    stands before all entries that the order ranks behind it. *)
Theorem processedProducts_sorted (localeCompare : string → string → Z)
    (historyProducts : list BrowsingHistory.Entry)
    (searchQuery filterBy : string) :
  StronglySorted
    (λ a b, (price (BrowsingHistory.base a)
             <= price (BrowsingHistory.base b))%Q)
    (BrowsingHistory.processedProducts localeCompare historyProducts
       searchQuery filterBy "price")
  ∧ StronglySorted
      (λ a b, (rating (BrowsingHistory.base b)
               <= rating (BrowsingHistory.base a))%Q)
      (BrowsingHistory.processedProducts localeCompare historyProducts
         searchQuery filterBy "rating")
  ∧ StronglySorted
      (λ a b, BrowsingHistory.viewedAt b ≤ BrowsingHistory.viewedAt a)
      (BrowsingHistory.processedProducts localeCompare historyProducts
         searchQuery filterBy "recent").
Proof.
  unfold BrowsingHistory.processedProducts. split; [|split].
  - apply Sorted_StronglySorted; [intros a b c; cbn; lra|].
    eapply Sorted_weaken; [|apply sort_Sorted].
    + intros a b Hab. cbn beta in Hab. rewrite compare_price in Hab. lra.
    + intros a b. rewrite !compare_price. lra.
  - apply Sorted_StronglySorted; [intros a b c; cbn; lra|].
    eapply Sorted_weaken; [|apply sort_Sorted].
    + intros a b Hab. cbn beta in Hab. rewrite compare_rating in Hab. lra.
    + intros a b. rewrite !compare_rating. lra.
  - apply Sorted_StronglySorted; [intros a b c; cbn; lia|].
    eapply Sorted_weaken; [|apply sort_Sorted].
    + intros a b Hab. cbn beta in Hab.
      rewrite compare_recent, inject_Z_nonpos in Hab. lia.
    + intros a b. rewrite !compare_recent, inject_Z_nonpos, inject_Z_pos. lia.
Qed.

Lemma elem_of_filtered (historyProducts : list BrowsingHistory.Entry)
    (searchQuery filterBy : string) (e : BrowsingHistory.Entry) :
  e ∈ BrowsingHistory.filtered historyProducts searchQuery filterBy
  ↔ e ∈ historyProducts
    ∧ (searchQuery ≠ EmptyString →
       BrowsingHistory.matchesSearch searchQuery e = true)
    ∧ (filterBy ≠ "all" → BrowsingHistory.matchesFilter filterBy e = true).
Proof.
  unfold BrowsingHistory.filtered. cbv zeta.
  repeat case_bool_decide; rewrite ?list_elem_of_filter, ?Is_true_true;
    intuition congruence.
Qed.

(** Whatever the sort key, the list shown holds exactly the entries that
    pass the search text and the filter button, each as often as the derived
    list holds it: under the favourites button only favourites, under a
    category button only entries of that category.  With a sort key that is
    none of the four known ones the entries keep their order. *)
Theorem processedProducts_filters (localeCompare : string → string → Z)
    (historyProducts : list BrowsingHistory.Entry)
    (searchQuery filterBy sortBy : string) :
  let shown :=
    BrowsingHistory.processedProducts localeCompare historyProducts
      searchQuery filterBy sortBy in
  shown ≡ₚ BrowsingHistory.filtered historyProducts searchQuery filterBy
  ∧ (∀ e, e ∈ shown →
       e ∈ historyProducts
       ∧ (filterBy = "favorites" → BrowsingHistory.isFavorite e = true)
       ∧ (filterBy ≠ "all" → filterBy ≠ "favorites" →
          category (BrowsingHistory.base e) = filterBy))
  ∧ (searchQuery = EmptyString → filterBy = "all" → shown ≡ₚ historyProducts)
  ∧ (sortBy ∉ ["recent"; "name"; "price"; "rating"] →
     shown = BrowsingHistory.filtered historyProducts searchQuery filterBy).
Proof.
  cbv zeta. unfold BrowsingHistory.processedProducts.
  split; [apply sort_Permutation|]. split; [|split].
  - intros e. rewrite sort_Permutation, elem_of_filtered.
    intros (Hin & _ & Hf). split; [done|].
    unfold BrowsingHistory.matchesFilter in Hf. split.
    + intros ->. rewrite bool_decide_eq_true_2 in Hf by done.
      by apply Hf.
    + intros Hall Hfav. rewrite bool_decide_eq_false_2 in Hf by done.
      specialize (Hf Hall). by apply bool_decide_eq_true in Hf.
  - intros -> ->. by rewrite sort_Permutation.
  - intros Hkey. apply sort_unordered. intros a b.
    unfold BrowsingHistory.compare.
    rewrite !bool_decide_eq_false_2; [done|..];
      intros ->; apply Hkey; compute_done.
Qed.

Lemma processedProducts_filters_witness :
  BrowsingHistory.processedProducts (λ _ _, 0)
    [BrowsingHistory.mkEntry (mkProduct 1 "Runner" "X" "Shoes" 30 4) 3 false 1;
     BrowsingHistory.mkEntry (mkProduct 2 "Cap" "X" "Hats" 12 3) 2 true 1]
    EmptyString "favorites" "newest"
  = BrowsingHistory.filtered
      [BrowsingHistory.mkEntry (mkProduct 1 "Runner" "X" "Shoes" 30 4) 3 false 1;
       BrowsingHistory.mkEntry (mkProduct 2 "Cap" "X" "Hats" 12 3) 2 true 1]
      EmptyString "favorites".
Proof.
  apply processedProducts_filters. compute_done.
Defined.

(** The sort is stable under every sort key: two entries that the key's
    comparator ranks equal keep the order they had after filtering. *)
Theorem processedProducts_stable (localeCompare : string → string → Z)
    (historyProducts : list BrowsingHistory.Entry)
    (searchQuery filterBy sortBy : string) (a b : BrowsingHistory.Entry) :
  (BrowsingHistory.compare localeCompare sortBy a b == 0)%Q →
  inOrder a b (BrowsingHistory.filtered historyProducts searchQuery filterBy) →
  inOrder a b
    (BrowsingHistory.processedProducts localeCompare historyProducts
       searchQuery filterBy sortBy).
Proof.
  intros Heq Hin. unfold BrowsingHistory.processedProducts.
  apply sort_stable; [|done]. rewrite Heq. lra.
Qed.

Lemma processedProducts_stable_witness :
  inOrder
    (BrowsingHistory.mkEntry (mkProduct 1 "Runner" "X" "Shoes" 30 4) 3 false 1)
    (BrowsingHistory.mkEntry (mkProduct 3 "Boot" "Y" "Shoes" 30 5) 1 true 1)
    (BrowsingHistory.processedProducts (λ _ _, 0)
       [BrowsingHistory.mkEntry (mkProduct 1 "Runner" "X" "Shoes" 30 4) 3 false 1;
        BrowsingHistory.mkEntry (mkProduct 2 "Cap" "X" "Hats" 12 3) 2 false 1;
        BrowsingHistory.mkEntry (mkProduct 3 "Boot" "Y" "Shoes" 30 5) 1 true 1]
       EmptyString "all" "price").
Proof.
  apply processedProducts_stable.
  - reflexivity.
  - eexists [], [_], []. reflexivity.
Defined.

(** ** The history panel: category buttons *)

Lemma defaultCompare_antisym (a b : string) :
  (0 < JS.defaultCompare a b)%Q → (JS.defaultCompare b a <= 0)%Q.
Proof.
  unfold JS.defaultCompare. rewrite (String.compare_antisym b a).
  by destruct (String.compare a b).
Qed.

(** The category buttons name every category of the derived list, each once,
    in ascending order of the strings.  With an empty search text, a button
    whose label is not the word reserved for the favourites never leads to an
    empty list. *)
Theorem availableCategories_buttons (localeCompare : string → string → Z)
    (historyProducts : list BrowsingHistory.Entry) :
  let buttons := BrowsingHistory.availableCategories historyProducts in
  NoDup buttons
  ∧ (∀ c, c ∈ buttons
          ↔ ∃ e, e ∈ historyProducts ∧ category (BrowsingHistory.base e) = c)
  ∧ Sorted (λ a b, String.compare a b ≠ Gt) buttons
  ∧ (∀ c sortBy, c ∈ buttons → c ≠ "favorites" →
       BrowsingHistory.processedProducts localeCompare historyProducts
         EmptyString c sortBy ≠ []).
Proof.
  cbv zeta. unfold BrowsingHistory.availableCategories.
  assert (Hmem : ∀ c,
    c ∈ JS.sort JS.defaultCompare
          (JS.setOf (map (λ p, category (BrowsingHistory.base p))
                       historyProducts))
    ↔ ∃ e, e ∈ historyProducts ∧ category (BrowsingHistory.base e) = c).
  { intros c. rewrite sort_Permutation, elem_of_setOf, list_elem_of_fmap.
    split; intros (e & ? & ?); by exists e. }
  split; [|split; [exact Hmem|split]].
  - rewrite sort_Permutation. apply setOf_NoDup.
  - eapply Sorted_weaken; [|apply sort_Sorted, defaultCompare_antisym].
    intros a b Hab. cbn beta in Hab. unfold JS.defaultCompare in Hab.
    intros Hgt. rewrite Hgt in Hab. by apply Qle_bool_iff in Hab.
  - intros c sortBy Hc Hfav Hnil.
    apply Hmem in Hc as (e & He & Hcat).
    assert (Hin : e ∈ BrowsingHistory.processedProducts localeCompare
                        historyProducts EmptyString c sortBy).
    { unfold BrowsingHistory.processedProducts.
      rewrite sort_Permutation, elem_of_filtered. split; [done|].
      split; [done|]. intros _. unfold BrowsingHistory.matchesFilter.
      rewrite bool_decide_eq_false_2 by done. by apply bool_decide_eq_true. }
    rewrite Hnil in Hin. by apply elem_of_nil in Hin.
Qed.

Lemma availableCategories_buttons_witness :
  BrowsingHistory.processedProducts (λ _ _, 0)
    [BrowsingHistory.mkEntry (mkProduct 1 "Runner" "X" "Shoes" 30 4) 3 false 1;
     BrowsingHistory.mkEntry (mkProduct 2 "Cap" "X" "Hats" 12 3) 2 false 1]
    EmptyString "Hats" "recent" ≠ [].
Proof.
  apply availableCategories_buttons; [compute_done|discriminate].
Defined.

(** ** The history panel: formatting *)

Lemma div_pos_iff (a k : Z) : 0 < k → (a / k > 0 ↔ k ≤ a).
Proof.
  intros Hk. split.
  - intros Hq. destruct (decide (k ≤ a)) as [|Hlt]; [done|].
    assert (Hq1 : a / k < 1) by (apply Z.div_lt_upper_bound; lia).
    revert Hq Hq1. generalize (a / k). lia.
  - intros Hle.
    assert (Hq1 : 1 ≤ a / k) by (apply Z.div_le_lower_bound; lia).
    revert Hq1. generalize (a / k). lia.
Qed.

(** A time of viewing less than a minute back, or ahead of the clock, reads
    [Just now]; from a minute on it reads the whole minutes, from an hour on
    the whole hours, from a day on the whole days. *)
Theorem formatTimestamp_units (now timestamp : Z) :
  let diff := now - timestamp in
  (diff < 60000 → BrowsingHistory.formatTimestamp now timestamp = "Just now")
  ∧ (60000 ≤ diff < 3600000 →
     BrowsingHistory.formatTimestamp now timestamp
     = JS.showInteger (diff / 60000) +:+ "m ago")
  ∧ (3600000 ≤ diff < 86400000 →
     BrowsingHistory.formatTimestamp now timestamp
     = JS.showInteger (diff / 3600000) +:+ "h ago")
  ∧ (86400000 ≤ diff →
     BrowsingHistory.formatTimestamp now timestamp
     = JS.showInteger (diff / 86400000) +:+ "d ago").
Proof.
  intros diff. unfold BrowsingHistory.formatTimestamp. fold diff. cbv zeta.
  pose proof (div_pos_iff diff 60000 ltac:(lia)) as Hm.
  pose proof (div_pos_iff diff 3600000 ltac:(lia)) as Hh.
  pose proof (div_pos_iff diff 86400000 ltac:(lia)) as Hd.
  repeat split; intros Hdiff; repeat case_bool_decide; try done; lia.
Qed.

Lemma formatTimestamp_units_witness :
  BrowsingHistory.formatTimestamp 7200000 0 = "2h ago".
Proof.
  destruct (formatTimestamp_units 7200000 0) as (_ & _ & Hhours & _).
  apply Hhours. lia.
Defined.

Lemma Qfloor_ge (z : Z) (x : Q) : z ≤ Qfloor x ↔ (inject_Z z <= x)%Q.
Proof.
  split.
  - intros Hz. apply Qle_trans with (inject_Z (Qfloor x)); [|apply Qfloor_le].
    by rewrite <- Zle_Qle.
  - intros Hz. pose proof (Qlt_floor x) as Hlt.
    assert (Hzf : (inject_Z z < inject_Z (Qfloor x + 1))%Q) by lra.
    rewrite <- Zlt_Qlt in Hzf. lia.
Qed.

Lemma Qfloor_lt (z : Z) (x : Q) : Qfloor x < z ↔ (x < inject_Z z)%Q.
Proof.
  pose proof (Qfloor_ge z x) as Hge. split.
  - intros Hlt. apply Qnot_le_lt. intros Hle. apply Hge in Hle. lia.
  - intros Hlt. destruct (decide (z ≤ Qfloor x)) as [Hle|]; [|lia].
    apply Hge in Hle. lra.
Qed.

Lemma mod1_nonneg (x : Q) :
  (0 <= x)%Q → JS.mod1 x = (x - inject_Z (Qfloor x))%Q.
Proof.
  intros Hx. unfold JS.mod1. by rewrite (proj2 (Qle_bool_iff _ _) Hx).
Qed.

(** The star line of the history panel has [Math.floor(rating)] black stars
    followed by white stars up to five, for a rating from 0 up to, but not
    including, 5.5: a half star is drawn as an empty one.  For every other
    rating the rendering throws. *)
Theorem renderStars_line (rating : Q) :
  ((0 <= rating)%Q → (rating < 11 # 2)%Q →
   BrowsingHistory.renderStars rating
   = Some (replicate (Z.to_nat (Qfloor rating)) BrowsingHistory.BlackStar
           ++ replicate (5 - Z.to_nat (Qfloor rating))
                BrowsingHistory.WhiteStar))
  ∧ (BrowsingHistory.renderStars rating = None
     ↔ (rating < 0)%Q ∨ (11 # 2 <= rating)%Q).
Proof.
  assert (Hsome : (0 <= rating)%Q → (rating < 11 # 2)%Q →
    BrowsingHistory.renderStars rating
    = Some (replicate (Z.to_nat (Qfloor rating)) BrowsingHistory.BlackStar
            ++ replicate (5 - Z.to_nat (Qfloor rating))
                 BrowsingHistory.WhiteStar)).
  { intros H0 H5. unfold BrowsingHistory.renderStars. cbv zeta.
    rewrite mod1_nonneg by done.
    assert (Hf0 : 0 ≤ Qfloor rating) by (apply Qfloor_ge; exact H0).
    assert (Hf5 : Qfloor rating < 6)
      by (apply Qfloor_lt; change (inject_Z 6) with 6%Q; lra).
    pose proof (Qfloor_le rating) as Hfl.
    unfold JS.repeat.
    rewrite (bool_decide_eq_false_2 (Qfloor rating < 0)) by lia. cbn.
    destruct (JS.ge (rating - inject_Z (Qfloor rating)) (1 # 2)) eqn:Hhalf.
    - apply ge_true in Hhalf.
      assert (Hf4 : Qfloor rating < 5).
      { destruct (decide (Qfloor rating = 5)) as [Heq|]; [|lia].
        rewrite Heq in Hhalf. change (inject_Z 5) with 5%Q in Hhalf. lra. }
      rewrite bool_decide_eq_false_2 by lia. cbn. do 2 f_equal.
      replace (5 - Z.to_nat (Qfloor rating))%nat
        with (S (Z.to_nat (5 - Qfloor rating - 1))) by lia.
      done.
    - rewrite bool_decide_eq_false_2 by lia. cbn. do 3 f_equal. lia. }
  split; [exact Hsome|]. split.
  - intros Hnone. destruct (Qlt_le_dec rating 0) as [|H0]; [by left|].
    destruct (Qlt_le_dec rating (11 # 2)) as [H5|]; [|by right].
    by rewrite Hsome in Hnone.
  - unfold BrowsingHistory.renderStars, JS.repeat. cbv zeta.
    intros [Hneg|Hbig].
    + rewrite (bool_decide_eq_true_2 (Qfloor rating < 0)); [done|].
      apply (Qfloor_lt 0). exact Hneg.
    + assert (H0 : (0 <= rating)%Q) by lra.
      rewrite mod1_nonneg by done.
      assert (Hf5 : 5 ≤ Qfloor rating)
        by (apply Qfloor_ge; change (inject_Z 5) with 5%Q; lra).
      rewrite (bool_decide_eq_false_2 (Qfloor rating < 0)) by lia. cbn.
      destruct (JS.ge (rating - inject_Z (Qfloor rating)) (1 # 2)) eqn:Hhalf.
      * by rewrite bool_decide_eq_true_2 by lia.
      * rewrite bool_decide_eq_true_2; [done|].
        destruct (decide (Qfloor rating = 5)) as [Heq|]; [|lia].
        rewrite Heq in Hhalf. apply not_true_iff_false in Hhalf.
        destruct Hhalf. apply ge_true. change (inject_Z 5) with 5%Q. lra.
Qed.

Lemma renderStars_line_witness :
  BrowsingHistory.renderStars (9 # 2)
  = Some [BrowsingHistory.BlackStar; BrowsingHistory.BlackStar;
          BrowsingHistory.BlackStar; BrowsingHistory.BlackStar;
          BrowsingHistory.WhiteStar].
Proof.
  destruct (renderStars_line (9 # 2)) as [Hline _].
  apply Hline; by apply Qle_bool_iff || reflexivity.
Defined.

(** ** The catalogue: stars, comparison list, wishlist, sort *)

(** The catalogue always draws five stars.  For a rating below 0 none is
    filled and for a rating of 5 or more all are; in between,
    [Math.floor(rating)] stars are filled, the next one is a half star when
    the fractional part reaches one half, and the rest are plain. *)
Theorem stars_five (rating : Q) :
  length (Catalog.stars rating) = 5%nat
  ∧ ((rating < 0)%Q → Catalog.stars rating = replicate 5 Catalog.Plain)
  ∧ ((5 <= rating)%Q → Catalog.stars rating = replicate 5 Catalog.Filled)
  ∧ ((0 <= rating)%Q → (rating < 5)%Q →
     Catalog.stars rating
     = replicate (Z.to_nat (Qfloor rating)) Catalog.Filled
       ++ [if JS.ge (rating - inject_Z (Qfloor rating)) (1 # 2)
           then Catalog.Half else Catalog.Plain]
       ++ replicate (4 - Z.to_nat (Qfloor rating)) Catalog.Plain).
Proof.
  split; [done|]. split; [|split].
  - intros Hneg. assert (Hf : Qfloor rating < 0) by (by apply (Qfloor_lt 0)).
    unfold Catalog.stars. cbn [map].
    rewrite !(bool_decide_eq_false_2 (_ < Qfloor rating)) by lia.
    rewrite !(bool_decide_eq_false_2 (_ = Qfloor rating)) by lia. done.
  - intros Hbig.
    assert (Hf : 5 ≤ Qfloor rating)
      by (apply Qfloor_ge; change (inject_Z 5) with 5%Q; lra).
    unfold Catalog.stars. cbn [map].
    rewrite !(bool_decide_eq_true_2 (_ < Qfloor rating)) by lia. done.
  - intros H0 H5.
    assert (Hf0 : 0 ≤ Qfloor rating) by (by apply Qfloor_ge).
    assert (Hf5 : Qfloor rating < 5)
      by (apply Qfloor_lt; change (inject_Z 5) with 5%Q; lra).
    unfold Catalog.stars. cbv zeta. rewrite mod1_nonneg by done.
    generalize (JS.ge (rating - inject_Z (Qfloor rating)) (1 # 2)).
    intros half.
    assert (Hcases : Qfloor rating = 0 ∨ Qfloor rating = 1
                     ∨ Qfloor rating = 2 ∨ Qfloor rating = 3
                     ∨ Qfloor rating = 4) by lia.
    destruct Hcases as [->|[->|[->|[->| ->]]]]; by destruct half.
Qed.

Lemma stars_five_witness :
  Catalog.stars (7 # 2)
  = [Catalog.Filled; Catalog.Filled; Catalog.Filled; Catalog.Half;
     Catalog.Plain].
Proof.
  destruct (stars_five (7 # 2)) as (_ & _ & _ & Hmid).
  apply Hmid; by apply Qle_bool_iff || reflexivity.
Defined.

Lemma handleCompareToggle_keeps (onProductCompare : bool) (productId : Z)
    (st : Catalog.State) :
  NoDup (Catalog.compareList st) →
  (length (Catalog.compareList st) ≤ 3)%nat →
  let after := Catalog.handleCompareToggle onProductCompare productId st in
  NoDup (Catalog.compareList after.1)
  ∧ (length (Catalog.compareList after.1) ≤ 3)%nat.
Proof.
  intros Hnd Hlen. unfold Catalog.handleCompareToggle.
  destruct (decide (productId ∈ Catalog.compareList st)) as [Hin|Hout].
  - rewrite !(bool_decide_eq_true_2 (productId ∈ _)) by done.
    rewrite andb_false_r. cbn. split; [by apply setDelete_NoDup|].
    unfold JS.setDelete.
    pose proof (length_filter (λ y, y ≠ productId) (Catalog.compareList st)).
    lia.
  - rewrite !(bool_decide_eq_false_2 (productId ∈ _)) by done.
    rewrite andb_true_r. case_bool_decide as Hfull; cbn; [done|].
    split; [by apply setAdd_NoDup|].
    unfold JS.setAdd. rewrite bool_decide_eq_false_2 by done.
    rewrite length_app. cbn. lia.
Qed.

(** The comparison list never holds more than three products nor one twice.
    When three are held, a toggle on a fourth changes nothing and calls
    nothing; any other toggle takes the product out when it is held and adds
    it at the end when it is not, and hands the new list to the parent. *)
Theorem handleCompareToggle_cap (productId : Z) (st : Catalog.State) :
  (∀ ids st0,
     Catalog.compareList st0 = [] →
     let final :=
       foldl (λ s i, (Catalog.handleCompareToggle true i s).1) st0 ids in
     NoDup (Catalog.compareList final)
     ∧ (length (Catalog.compareList final) ≤ 3)%nat)
  ∧ ((3 ≤ length (Catalog.compareList st))%nat →
     productId ∉ Catalog.compareList st →
     Catalog.handleCompareToggle true productId st = (st, []))
  ∧ (productId ∈ Catalog.compareList st →
     Catalog.handleCompareToggle true productId st
     = (Catalog.mkState (Catalog.viewMode st) (Catalog.sortBy st)
          (Catalog.wishlist st)
          (filter (λ i, i ≠ productId) (Catalog.compareList st))
          (Catalog.compareMode st),
        [Catalog.OnProductCompare
           (filter (λ i, i ≠ productId) (Catalog.compareList st))]))
  ∧ ((length (Catalog.compareList st) < 3)%nat →
     productId ∉ Catalog.compareList st →
     Catalog.handleCompareToggle true productId st
     = (Catalog.mkState (Catalog.viewMode st) (Catalog.sortBy st)
          (Catalog.wishlist st) (Catalog.compareList st ++ [productId])
          (Catalog.compareMode st),
        [Catalog.OnProductCompare (Catalog.compareList st ++ [productId])])).
Proof.
  split; [|split; [|split]].
  - intros ids st0 Hempty. cbv zeta.
    induction ids as [|i ids IH] using rev_ind.
    + cbn. rewrite Hempty. split; [apply NoDup_nil_2|cbn; lia].
    + rewrite foldl_app. cbn [foldl]. destruct IH as [Hnd Hlen].
      by apply handleCompareToggle_keeps.
  - intros Hfull Hout. unfold Catalog.handleCompareToggle.
    rewrite bool_decide_eq_true_2 by done.
    by rewrite bool_decide_eq_false_2 by done.
  - intros Hin. unfold Catalog.handleCompareToggle.
    rewrite !(bool_decide_eq_true_2 (productId ∈ _)) by done.
    by rewrite andb_false_r.
  - intros Hroom Hout. unfold Catalog.handleCompareToggle.
    rewrite !(bool_decide_eq_false_2 (productId ∈ _)) by done.
    rewrite bool_decide_eq_false_2 by lia. cbn.
    unfold JS.setAdd. by rewrite bool_decide_eq_false_2 by done.
Qed.

Lemma handleCompareToggle_cap_witness :
  Catalog.handleCompareToggle true 4
    (Catalog.mkState "grid" "featured" ∅ [1; 2; 3] true)
  = (Catalog.mkState "grid" "featured" ∅ [1; 2; 3] true, []).
Proof.
  destruct (handleCompareToggle_cap 4
              (Catalog.mkState "grid" "featured" ∅ [1; 2; 3] true))
    as (_ & Hfull & _).
  apply Hfull; [cbn; lia|compute_done].
Defined.

(** The wishlist toggle flips the membership of its product and of no other,
    tells the parent the new membership, and leaves the comparison list and
    the other cells alone; toggling twice restores the wishlist. *)
Theorem handleWishlistToggle_reports (productId : Z) (st : Catalog.State) :
  let after := Catalog.handleWishlistToggle true productId st in
  (productId ∈ Catalog.wishlist after.1 ↔ productId ∉ Catalog.wishlist st)
  ∧ (∀ i, i ≠ productId →
       (i ∈ Catalog.wishlist after.1 ↔ i ∈ Catalog.wishlist st))
  ∧ after.2
    = [Catalog.OnProductFavorite productId
         (bool_decide (productId ∈ Catalog.wishlist after.1))]
  ∧ Catalog.compareList after.1 = Catalog.compareList st
  ∧ Catalog.sortBy after.1 = Catalog.sortBy st
  ∧ Catalog.viewMode after.1 = Catalog.viewMode st
  ∧ Catalog.compareMode after.1 = Catalog.compareMode st
  ∧ Catalog.wishlist
      (Catalog.handleWishlistToggle true productId after.1).1
    = Catalog.wishlist st.
Proof.
  destruct st as [vm sb wl cl cm]. cbn.
  destruct (decide (productId ∈ wl)) as [Hin|Hout].
  - rewrite !(bool_decide_eq_true_2 (productId ∈ wl)) by done.
    assert (Hgone : productId ∉ wl ∖ {[productId]})
      by (rewrite elem_of_difference, elem_of_singleton; tauto).
    rewrite !(bool_decide_eq_false_2 (productId ∈ wl ∖ {[productId]}))
      by done.
    split; [tauto|]. split.
    { intros i Hne. rewrite elem_of_difference, elem_of_singleton. tauto. }
    repeat (split; [done|]). apply set_eq. intros i.
    rewrite elem_of_union, elem_of_difference, elem_of_singleton.
    destruct (decide (i = productId)) as [->|]; tauto.
  - rewrite !(bool_decide_eq_false_2 (productId ∈ wl)) by done.
    assert (Hthere : productId ∈ wl ∪ {[productId]})
      by (rewrite elem_of_union, elem_of_singleton; tauto).
    rewrite !(bool_decide_eq_true_2 (productId ∈ wl ∪ {[productId]}))
      by done.
    split; [tauto|]. split.
    { intros i Hne. rewrite elem_of_union, elem_of_singleton. tauto. }
    repeat (split; [done|]). apply set_eq. intros i.
    rewrite elem_of_difference, elem_of_union, elem_of_singleton.
    destruct (decide (i = productId)) as [->|]; tauto.
Qed.

Lemma handleWishlistToggle_reports_witness :
  2 ∈ Catalog.wishlist
        (Catalog.handleWishlistToggle true 1
           (Catalog.mkState "grid" "featured" {[2]} [] false)).1.
Proof.
  destruct (handleWishlistToggle_reports 1
              (Catalog.mkState "grid" "featured" {[2]} [] false))
    as (_ & Hother & _).
  apply Hother; [discriminate|compute_done].
Defined.

Lemma catalog_compare_price_low (round : Q → Q)
    (localeCompare : string → string → Z) (wishlist : gset Z)
    (a b : Catalog.Item) :
  Catalog.compare round localeCompare "price-low" wishlist a b
  = (price (Catalog.base a) - price (Catalog.base b))%Q.
Proof. reflexivity. Qed.

Lemma catalog_compare_price_high (round : Q → Q)
    (localeCompare : string → string → Z) (wishlist : gset Z)
    (a b : Catalog.Item) :
  Catalog.compare round localeCompare "price-high" wishlist a b
  = (price (Catalog.base b) - price (Catalog.base a))%Q.
Proof. reflexivity. Qed.

Lemma catalog_compare_rating (round : Q → Q)
    (localeCompare : string → string → Z) (wishlist : gset Z)
    (a b : Catalog.Item) :
  Catalog.compare round localeCompare "rating" wishlist a b
  = (rating (Catalog.base b) - rating (Catalog.base a))%Q.
Proof. reflexivity. Qed.

Lemma sortedProducts_sort (round : Q → Q)
    (localeCompare : string → string → Z)
    (products : list Catalog.Item) (sortBy : string) (wishlist : gset Z) :
  Catalog.sortedProducts round localeCompare products sortBy wishlist
  = JS.sort (Catalog.compare round localeCompare sortBy wishlist) products.
Proof.
  unfold Catalog.sortedProducts. case_bool_decide as Hlen; [|done].
  by destruct products.
Qed.

(** The catalogue shows every product it is given, each as often as given,
    whatever the sort key.  Sorted by low price the prices ascend, sorted by
    high price they descend, sorted by rating the ratings descend; and two
    products that the comparator ranks equal keep the order in which they
    were given.  The default ranking is computed with the host's rounding,
    whatever it is. *)
Theorem sortedProducts_orders (round : Q → Q)
    (localeCompare : string → string → Z)
    (products : list Catalog.Item) (sortBy : string) (wishlist : gset Z) :
  Catalog.sortedProducts round localeCompare products sortBy wishlist ≡ₚ products
  ∧ StronglySorted
      (λ a b, (price (Catalog.base a) <= price (Catalog.base b))%Q)
      (Catalog.sortedProducts round localeCompare products "price-low" wishlist)
  ∧ StronglySorted
      (λ a b, (price (Catalog.base b) <= price (Catalog.base a))%Q)
      (Catalog.sortedProducts round localeCompare products "price-high" wishlist)
  ∧ StronglySorted
      (λ a b, (rating (Catalog.base b) <= rating (Catalog.base a))%Q)
      (Catalog.sortedProducts round localeCompare products "rating" wishlist)
  ∧ (∀ a b,
       (Catalog.compare round localeCompare sortBy wishlist a b == 0)%Q →
       inOrder a b products →
       inOrder a b
         (Catalog.sortedProducts round localeCompare products sortBy wishlist)).
Proof.
  rewrite !sortedProducts_sort.
  split; [apply sort_Permutation|]. split; [|split; [|split]].
  - apply Sorted_StronglySorted; [intros a b c; cbn; lra|].
    eapply Sorted_weaken; [|apply sort_Sorted].
    + intros a b Hab. cbn beta in Hab.
      rewrite catalog_compare_price_low in Hab. lra.
    + intros a b. rewrite !catalog_compare_price_low. lra.
  - apply Sorted_StronglySorted; [intros a b c; cbn; lra|].
    eapply Sorted_weaken; [|apply sort_Sorted].
    + intros a b Hab. cbn beta in Hab.
      rewrite catalog_compare_price_high in Hab. lra.
    + intros a b. rewrite !catalog_compare_price_high. lra.
  - apply Sorted_StronglySorted; [intros a b c; cbn; lra|].
    eapply Sorted_weaken; [|apply sort_Sorted].
    + intros a b Hab. cbn beta in Hab.
      rewrite catalog_compare_rating in Hab. lra.
    + intros a b. rewrite !catalog_compare_rating. lra.
  - intros a b Heq Hin. apply sort_stable; [|done]. rewrite Heq. lra.
Qed.

Lemma sortedProducts_orders_witness :
  inOrder
    (Catalog.mkItem (mkProduct 1 "Runner" "X" "Shoes" 30 4) None None)
    (Catalog.mkItem (mkProduct 3 "Boot" "Y" "Shoes" 30 5) (Some 12%Q) None)
    (Catalog.sortedProducts (λ x, x) (λ _ _, 0)
       [Catalog.mkItem (mkProduct 1 "Runner" "X" "Shoes" 30 4) None None;
        Catalog.mkItem (mkProduct 2 "Cap" "X" "Hats" 12 3) None None;
        Catalog.mkItem (mkProduct 3 "Boot" "Y" "Shoes" 30 5) (Some 12%Q) None]
       "price-high" ∅).
Proof.
  apply sortedProducts_orders.
  - reflexivity.
  - eexists [], [_], []. reflexivity.
Defined.

(** ** The insights: the favourite brand and the counts *)

(** Take a non-empty derived list in which no brand names a member that an
    object literal inherits from [Object.prototype], and in which some
    category is not [__proto__], so that the category table has an entry.
    The second insight names a brand of the list that no brand outnumbers; a
    different brand with the same count stands before it in the enumeration
    of the count table, which for brands that are no array indices means
    that it was met first. *)
Theorem insights_favorite_brand (memberText : string → string)
    (round : Q → Q) (toFixed : Q → nat → string)
    (hp : list BrowsingHistory.Entry) :
  let br := λ p, brand (BrowsingHistory.base p) in
  hp ≠ [] →
  Forall (λ p, JS.inherited (br p) = false) hp →
  (∃ p, p ∈ hp ∧ category (BrowsingHistory.base p) ≠ "__proto__") →
  ∃ first topBrand rest,
    BrowsingHistory.insights memberText round toFixed hp
    = Some (first :: ("Favorite brand: " +:+ topBrand) :: rest)
    ∧ topBrand ∈ map br hp
    ∧ (∀ b, occurrences br b hp ≤ occurrences br topBrand hp)%nat
    ∧ (∀ b, b ≠ topBrand →
         occurrences br b hp = occurrences br topBrand hp →
         enumeratedBefore b topBrand
           (JS.entries (BrowsingHistory.countBy memberText br hp)).*1
         ∧ (Forall (λ p, JS.arrayIndex (br p) = None) hp →
            firstSeenBefore b topBrand (map br hp))).
Proof.
  intros br Hne Hplain Hcat.
  destruct (top_countBy memberText br hp Hne Hplain)
    as (k & Hk & Hin & Hmax & Htie).
  destruct (top_nonempty (BrowsingHistory.countBy memberText
              (λ p, category (BrowsingHistory.base p)) hp)) as [c Hc].
  { by apply countBy_nonempty. }
  eexists _, k, _. split; [exact (insights_nonempty _ _ _ _ _ _ Hne Hc Hk)|].
  split; [done|]. split; [done|].
  intros b Hbk Hocc. split; [by apply Htie|].
  intros Hindex. apply (countBy_first_seen memberText); [done..|].
  by apply Htie.
Qed.

Lemma insights_favorite_brand_witness :
  ∃ first rest,
    BrowsingHistory.insights (λ _, "[object Object]") (λ x, x)
      (λ _ _, EmptyString)
      [BrowsingHistory.mkEntry (mkProduct 1 "Runner" "X" "Shoes" 30 4) 3 false 1;
       BrowsingHistory.mkEntry (mkProduct 2 "Boot" "Y" "Shoes" 80 5) 2 false 1;
       BrowsingHistory.mkEntry (mkProduct 3 "Cap" "X" "Hats" 12 3) 1 false 1]
    = Some (first :: "Favorite brand: X" :: rest).
Proof.
  destruct (insights_favorite_brand (λ _, "[object Object]") (λ x, x)
      (λ _ _, EmptyString)
      [BrowsingHistory.mkEntry (mkProduct 1 "Runner" "X" "Shoes" 30 4) 3 false 1;
       BrowsingHistory.mkEntry (mkProduct 2 "Boot" "Y" "Shoes" 80 5) 2 false 1;
       BrowsingHistory.mkEntry (mkProduct 3 "Cap" "X" "Hats" 12 3) 1 false 1])
    as (first & top & rest & Hins & _).
  - discriminate.
  - repeat constructor.
  - eexists. split; [apply elem_of_cons; by left|discriminate].
  - exists first, rest. rewrite Hins. vm_compute in Hins.
    injection Hins as _ <- _. reflexivity.
Defined.

Section Totals.
Implicit Types (o : JS.object BrowsingHistory.Count) (k : string).
Implicit Types (v w : BrowsingHistory.Count).

Lemma sum_create k v o :
  sum_list (numberOf <$> (JS.create k v o).*2)
  = (numberOf v + sum_list (numberOf <$> o.*2))%nat.
Proof.
  induction o as [|[k1 v1] o IH]; cbn; [done|].
  destruct (JS.precedes k k1); cbn; [done|]. rewrite IH. lia.
Qed.

Lemma sum_overwrite k v w o :
  JS.get o k = Some w →
  (sum_list (numberOf <$> (JS.overwrite k v o).*2) + numberOf w
   = numberOf v + sum_list (numberOf <$> o.*2))%nat.
Proof.
  induction o as [|[k1 v1] o IH]; cbn; [done|].
  case_bool_decide as Hk; cbn.
  - intros [= ->]. lia.
  - intros Hget. specialize (IH Hget). lia.
Qed.
End Totals.

(** When no key names a member that an object literal inherits from
    [Object.prototype], every entry of the count table is a number greater
    than 0, and the numbers add up to the number of entries counted. *)
Theorem countBy_total (memberText : string → string)
    (key : BrowsingHistory.Entry → string)
    (l : list BrowsingHistory.Entry) :
  Forall (λ p, JS.inherited (key p) = false) l →
  sum_list
    (numberOf <$> (JS.entries (BrowsingHistory.countBy memberText key l)).*2)
  = length l
  ∧ Forall (λ kv, ∃ n, kv.2 = BrowsingHistory.Number n ∧ (0 < n)%nat)
      (JS.entries (BrowsingHistory.countBy memberText key l)).
Proof.
  unfold JS.entries. intros Hplain. split.
  - induction l as [|p l IH] using rev_ind; [done|].
    apply Forall_app in Hplain as [Hl Hp].
    rewrite Forall_singleton in Hp. specialize (IH Hl).
    rewrite countBy_snoc, store_plain, length_app by done. cbn [length].
    unfold BrowsingHistory.increment, JS.assign.
    rewrite (countBy_get memberText key l (key p)) by done.
    case_decide as Hocc.
    + rewrite Hp, sum_create. cbn [numberOf]. lia.
    + pose proof (sum_overwrite (key p)
        (BrowsingHistory.Number (occurrences key (key p) l + 1))
        (BrowsingHistory.Number (occurrences key (key p) l)) _
        (eq_trans (countBy_get memberText key l (key p) Hl)
           (decide_False _ _ Hocc))) as Hsum.
      cbn [numberOf] in Hsum. lia.
  - apply Forall_forall. intros [k v] Hin.
    apply countBy_elem_of in Hin as [-> Hpos]; [|done]. by eexists.
Qed.

Lemma countBy_total_witness :
  let l :=
    [BrowsingHistory.mkEntry (mkProduct 1 "Runner" "X" "Shoes" 30 4) 3 false 1;
     BrowsingHistory.mkEntry (mkProduct 2 "Boot" "Y" "Shoes" 80 5) 2 false 1;
     BrowsingHistory.mkEntry (mkProduct 3 "Cap" "X" "Hats" 12 3) 1 false 1] in
  sum_list
    (numberOf <$> (JS.entries
       (BrowsingHistory.countBy (λ _, "[object Object]")
          (λ p, category (BrowsingHistory.base p)) l)).*2)
  = 3%nat.
Proof.
  cbv zeta.
  apply (countBy_total (λ _, "[object Object]")
           (λ p, category (BrowsingHistory.base p))).
  repeat constructor.
Defined.

(** ** The confidence colour *)

(** The colour never gets worse as the score grows: above a green score
    every score is green, below a red score every score is red. *)
Theorem getConfidenceColor_monotone (low high : Q) :
  (low <= high)%Q →
  (Recommendations.getConfidenceColor low = "#16a34a" →
   Recommendations.getConfidenceColor high = "#16a34a")
  ∧ (Recommendations.getConfidenceColor high = "#ef4444" →
     Recommendations.getConfidenceColor low = "#ef4444")
  ∧ (Recommendations.getConfidenceColor low = "#f59e0b" →
     Recommendations.getConfidenceColor high ≠ "#ef4444").
Proof.
  intros Hle. split; [|split].
  - rewrite !getConfidenceColor_green. lra.
  - rewrite !getConfidenceColor_red. lra.
  - rewrite getConfidenceColor_yellow, getConfidenceColor_red. lra.
Qed.

Lemma getConfidenceColor_monotone_witness :
  Recommendations.getConfidenceColor 9 = "#16a34a".
Proof.
  destruct (getConfidenceColor_monotone 8 9) as [Hgreen _].
  - discriminate.
  - apply Hgreen. reflexivity.
Defined.

(** ** From the panel to the catalogue *)

Lemma filter_ext_elem {A} (P1 P2 : A → Prop) `{!∀ x, Decision (P1 x)}
    `{!∀ x, Decision (P2 x)} (l : list A) :
  (∀ x, x ∈ l → P1 x ↔ P2 x) → filter P1 l = filter P2 l.
Proof.
  induction l as [|x l IH]; intros Hext; [done|].
  assert (Hx : P1 x ↔ P2 x) by (apply Hext, elem_of_cons; by left).
  assert (Hl : filter P1 l = filter P2 l).
  { apply IH. intros y Hy. apply Hext, elem_of_cons. by right. }
  destruct (decide (P1 x)) as [H1|H1].
  - rewrite !filter_cons_True by tauto. by rewrite Hl.
  - rewrite !filter_cons_False by tauto. done.
Qed.

(** With the price range [all] and no search text, the selection reported by
    the panel decides the filtered catalogue alone: of a catalogue within the
    data model the shell shows, in order, the products whose category is
    selected, or all categories when none is, and whose brand is selected, or
    all brands when none is. *)
Theorem panel_selection_filters (panel : UserPreferences.State)
    (products : list Product) :
  UserPreferences.priceRange panel = "all" →
  Forall inDataModel products →
  App.filterProducts products EmptyString
    (App.handlePreferencesChange (UserPreferences.onPreferencesChange panel)
       (App.userPreferences App.initialState))
  = filter (λ p,
        (UserPreferences.selectedCategories panel = []
         ∨ category p ∈ UserPreferences.selectedCategories panel)
        ∧ (UserPreferences.selectedBrands panel = []
           ∨ brand p ∈ UserPreferences.selectedBrands panel))
      products.
Proof.
  intros Hrange Hmodel. unfold App.filterProducts.
  apply filter_ext_elem.
  intros p Hp. rewrite Forall_forall in Hmodel.
  destruct (Hmodel p Hp) as (_ & Hr & _).
  rewrite Is_true_true. unfold App.matches. rewrite !andb_true_iff.
  unfold App.matchesSearch, App.matchesPrice, App.matchesRating,
    App.matchesCategory, App.matchesBrand.
  cbn [App.handlePreferencesChange UserPreferences.onPreferencesChange
       priceRange categories brands minRating newPriceRange newCategories
       newBrands newMinRating default from_option App.userPreferences
       App.initialState].
  rewrite Hrange. rewrite !(bool_decide_eq_true_2 (_ = _ :> string)) by done.
  cbn [orb]. rewrite !orb_true_iff, !bool_decide_eq_true.
  rewrite (ge_true (rating p) 0).
  destruct (UserPreferences.selectedCategories panel);
    destruct (UserPreferences.selectedBrands panel); cbn [length];
    intuition (try done; try lia).
Qed.

Lemma panel_selection_filters_witness :
  App.filterProducts
    [mkProduct 1 "Runner" "X" "Shoes" 30 4; mkProduct 2 "Cap" "Y" "Hats" 12 3]
    EmptyString
    (App.handlePreferencesChange
       (UserPreferences.onPreferencesChange
          (UserPreferences.mkState ["Hats"] [] "all"))
       (App.userPreferences App.initialState))
  = [mkProduct 2 "Cap" "Y" "Hats" 12 3].
Proof.
  rewrite panel_selection_filters.
  - reflexivity.
  - reflexivity.
  - repeat (apply Forall_cons_2;
            [repeat split; by apply Qle_bool_iff|]).
    apply Forall_nil_2.
Defined.
